(** * pr-agent starter server (projects/unit3/build-mcp-server/starter/server.py)

    A shallow embedding of the three tool functions of [server.py] and of the
    Python primitives they call, followed by the properties of the
    specification that concern them.

    Conventions.
    - A Python [str] is a sequence of Unicode code points: [list N].
    - A Python [int] is a [Z].
    - [json.dumps(value, ensure_ascii=False)] is the last step of every
      function; the embedding stops at [value], the document being
      serialised, kept as an ordered tree (a Python [dict] keeps insertion
      order, and so does the text [json.dumps] prints).
    - The outside world is explicit: the process executor behind
      [subprocess.run] and the host capability behind
      [context.session.list_roots()] are arguments, and every
      [subprocess.run] the function performs is logged in order.
    - The interpreter bounds the digits of a conversion between [int] and
      [str]: [int] refuses a longer run of digits, and [renders] tells
      where an f-string gives the text of a number. *)

From Stdlib Require Import Ascii String Decimal DecimalString DecimalPos
  DecimalN.
From Stdlib Require Import List ZArith NArith Bool Lia.
Import ListNotations.

Set Implicit Arguments.

(* ===================================================================== *)
(** * Python strings *)
(* ===================================================================== *)

Module Py.

Definition char := N.
Definition str := list char.

(** A literal of the source, as code points. *)
Definition lit (s : string) : str :=
  map N_of_ascii (list_ascii_of_string s).

Definition LF : char := 10%N.
Definition CR : char := 13%N.
Definition TAB : char := 9%N.

(** Line boundaries of [str.splitlines]: \n \v \f \r \x1c \x1d \x1e \x85
    U+2028 U+2029 (and \r\n as one boundary). *)
Definition is_linebreak (c : char) : bool :=
  ((10 <=? c) && (c <=? 13) || (28 <=? c) && (c <=? 30)
   || (c =? 133) || (c =? 8232) || (c =? 8233))%N.

(** Whitespace of [str.isspace], [str.strip] and of [\s] in a [str]
    pattern. *)
Definition isspace (c : char) : bool :=
  ((9 <=? c) && (c <=? 13) || (28 <=? c) && (c <=? 32)
   || (c =? 133) || (c =? 160) || (c =? 5760)
   || (8192 <=? c) && (c <=? 8202)
   || (c =? 8232) || (c =? 8233) || (c =? 8239) || (c =? 8287)
   || (c =? 12288))%N.

(** The decimal digits of ASCII. *)
Definition ascii_decimal (c : char) : option N :=
  if ((48 <=? c) && (c <=? 57))%N then Some (c - 48)%N else None.

(** What the interpreter fixes about decimal digits: the Unicode table of
    decimal digits (category Nd) with their values, which [\d] and [int]
    consult, and the number of digits [int] accepts
    ([sys.get_int_max_str_digits()]: 4300 unless it is set, 0 for no limit,
    never from 1 to 639).  Both belong to the interpreter; of the table only
    the ASCII part is fixed here. *)
Class UnicodeDecimal := {
  decimal : char -> option N;
  decimal_ascii : forall c, (c < 128)%N -> decimal c = ascii_decimal c;
  max_str_digits : N;
  max_str_digits_floor :
    max_str_digits = 0%N \/ (640 <= max_str_digits)%N
}.

(** [s.splitlines()] *)
Fixpoint splitlines (s : str) : list str :=
  match s with
  | [] => []
  | c :: s' =>
      if is_linebreak c then
        [] :: match s' with
              | c' :: s'' =>
                  if ((c =? CR) && (c' =? LF))%N then splitlines s''
                  else splitlines s'
              | [] => []
              end
      else
        match splitlines s' with
        | [] => [[c]]
        | l :: ls => (c :: l) :: ls
        end
  end.

(** [sep.join(xs)] *)
Fixpoint join (sep : str) (xs : list str) : str :=
  match xs with
  | [] => []
  | [x] => x
  | x :: xs' => x ++ sep ++ join sep xs'
  end.

(** [s.split(sep)] for a one-character separator: never empty. *)
Fixpoint split (sep : char) (s : str) : list str :=
  match s with
  | [] => [[]]
  | c :: s' =>
      if (c =? sep)%N then [] :: split sep s'
      else match split sep s' with
           | [] => [[c]]
           | f :: fs => (c :: f) :: fs
           end
  end.

Fixpoint lstrip (s : str) : str :=
  match s with
  | c :: s' => if isspace c then lstrip s' else s
  | [] => []
  end.

Definition rstrip (s : str) : str := rev (lstrip (rev s)).

(** [s.strip()] *)
Definition strip (s : str) : str := rstrip (lstrip s).

(** [xs[:n]], with Python's reading of a negative bound. *)
Definition slice_to {A} (xs : list A) (n : Z) : list A :=
  let len := Z.of_nat (length xs) in
  let stop := if (n <? 0)%Z then Z.max 0 (n + len) else n in
  firstn (Z.to_nat stop) xs.

(** [f"{n}"] for an [int]: the text the f-string gives when it gives one.
    The interpreter refuses this conversion too for a number of more digits
    than [max_str_digits]; that refusal is not part of this function, it
    is told by [renders] below. *)
Definition format_int (n : Z) : str :=
  lit (NilEmpty.string_of_int (Z.to_int n)).

(** [int(s)] on a run of decimal digits; [None] stands for the
    [ValueError] of any other text and of a run of more digits than the
    interpreter accepts (leading zeros count).  Signs, underscores and
    surrounding blanks, which [int] also reads, are outside this
    embedding. *)
Section Int.
Context {U : UnicodeDecimal}.

Fixpoint digits_value (acc : Z) (s : str) : option Z :=
  match s with
  | [] => Some acc
  | c :: s' =>
      match decimal c with
      | Some d => digits_value (10 * acc + Z.of_N d) s'
      | None => None
      end
  end.

(** More digits than the interpreter accepts. *)
Definition exceeds_limit (digits : nat) : bool :=
  (negb (max_str_digits =? 0) && (max_str_digits <? N.of_nat digits))%N.

Definition int (s : str) : option Z :=
  match s with
  | [] => None
  | _ => if exceeds_limit (length s) then None else digits_value 0 s
  end.

(** The f-string [f"{n}"] gives its text, [format_int n]: [n] has no more
    digits than the limit.  Python raises [ValueError] where this is
    false. *)
Definition renders (n : Z) : bool :=
  negb (exceeds_limit (length (format_int (Z.abs n)))).
End Int.

(** Truth value of a [str] used as a condition. *)
Definition truthy (s : str) : bool :=
  match s with [] => false | _ => true end.

End Py.

(* ===================================================================== *)
(** * The part of [re] the source uses *)
(* ===================================================================== *)

Module Re.
Import Py.

Inductive atom :=
| Digit            (* \d *)
| Space            (* \s *)
| Chr (c : char).  (* a literal character *)

Inductive quant :=
| One              (* x  *)
| Opt              (* x? , greedy *)
| Plus.            (* x+ , greedy *)

(** One quantified atom; [capture] marks an atom written inside ( ). *)
Record piece := Piece { capture : bool; rep : quant; what : atom }.

Definition pattern := list piece.

Definition chars (s : string) : pattern :=
  map (fun c => Piece false One (Chr c)) (lit s).

Section Matcher.
Context {U : UnicodeDecimal}.

Definition accepts (a : atom) (c : char) : bool :=
  match a with
  | Digit => match decimal c with Some _ => true | None => false end
  | Space => isspace c
  | Chr c' => (c =? c')%N
  end.

(** One character accepted by [ok], then the rest of the pattern. *)
Definition one_then (ok : char -> bool) (k : str -> option (list str))
    (s : str) : option (list str) :=
  match s with
  | c :: s' => if ok c then option_map (cons [c]) (k s') else None
  | [] => None
  end.

(** [x+]: as many characters as possible, giving back one at a time
    while the rest of the pattern fails. *)
Fixpoint plus_then (ok : char -> bool) (k : str -> option (list str))
    (s : str) : option (str * list str) :=
  match s with
  | c :: s' =>
      if ok c then
        match plus_then ok k s' with
        | Some (t, m) => Some (c :: t, m)
        | None => option_map (pair [c]) (k s')
        end
      else None
  | [] => None
  end.

(** Backtracking match of [ps] at the head of [s]: the text each piece
    took, in the order the engine finds it (greedy choices first). *)
Fixpoint match_here (ps : pattern) (s : str) {struct ps}
  : option (list str) :=
  match ps with
  | [] => Some []
  | p :: ps' =>
      let ok := accepts (what p) in
      match rep p with
      | One => one_then ok (match_here ps') s
      | Opt =>
          match one_then ok (match_here ps') s with
          | Some m => Some m
          | None => option_map (cons []) (match_here ps' s)
          end
      | Plus =>
          option_map (fun tm => fst tm :: snd tm)
                     (plus_then ok (match_here ps') s)
      end
  end.

(** [re.search(ps, s)]: the match at the leftmost position that has
    one. *)
Fixpoint search (ps : pattern) (s : str) : option (list str) :=
  match match_here ps s with
  | Some m => Some m
  | None =>
      match s with
      | [] => None
      | _ :: s' => search ps s'
      end
  end.
End Matcher.

(** The texts of the capturing pieces, in order. *)
Fixpoint groups (ps : pattern) (m : list str) : list str :=
  match ps, m with
  | p :: ps', t :: m' =>
      if capture p then t :: groups ps' m' else groups ps' m'
  | _, _ => []
  end.

(** [m.group(1)] *)
Definition group1 (ps : pattern) (m : list str) : str :=
  hd [] (groups ps m).

End Re.

(* ===================================================================== *)
(** * Documents handed to [json.dumps] *)
(* ===================================================================== *)

Module Json.
Import Py.

#[local] Unset Elimination Schemes.
Inductive json :=
| JNull
| JBool (b : bool)
| JInt (n : Z)
| JStr (s : str)
| JArr (xs : list json)
| JObj (fields : list (str * json)).
#[local] Set Elimination Schemes.

(** Keys of a document, in order. *)
Definition keys (j : json) : list str :=
  match j with
  | JObj fields => map fst fields
  | _ => []
  end.

Definition str_eqb (a b : str) : bool :=
  if list_eq_dec N.eq_dec a b then true else false.

(** [doc[k]] *)
Fixpoint lookup (k : str) (fields : list (str * json)) : option json :=
  match fields with
  | [] => None
  | (k', v) :: rest => if str_eqb k k' then Some v else lookup k rest
  end.

Definition field (k : string) (j : json) : option json :=
  match j with
  | JObj fields => lookup (lit k) fields
  | _ => None
  end.

End Json.

(* ===================================================================== *)
(** * Exceptions, [subprocess.run] and the host *)
(* ===================================================================== *)

Module Exec.
Import Py.

(** Exceptions, told apart as far as the [except] clauses of the source
    do; a subclass counts as the class that catches it. *)
Inductive exn :=
| CalledProcessError (cmd : list str) (stderr : option str)
| FileNotFoundError
| ValueError
| AttributeError
| OtherException (name : string).

Inductive outcome (A : Type) :=
| Return (a : A)
| Raise (e : exn).
Arguments Return {A} a.
Arguments Raise {A} e.

(** One [subprocess.run]: the working directory ([None] is the
    directory of the process) and the argument vector. *)
Record invocation := Invocation { cwd : option str; argv : list str }.

(** What the executor does with an invocation: the child ran and exited
    and its output was decoded as text; or it ran and exited and its
    output does not decode; or it could not be started. *)
Inductive spawned :=
| Exited (returncode : Z) (stdout stderr : str)
| Undecodable (returncode : Z)
| NotStarted (e : exn).

Definition executor := invocation -> spawned.

(** A computation: the invocations performed, in order, and how the
    computation ended. *)
Definition M (A : Type) : Type := (list invocation * outcome A)%type.

Definition ret {A} (a : A) : M A := ([], Return a).
Definition raise {A} (e : exn) : M A := ([], Raise e).

Definition bind {A B} (m : M A) (k : A -> M B) : M B :=
  match snd m with
  | Return a => (fst m ++ fst (k a), snd (k a))
  | Raise e => (fst m, Raise e)
  end.

(** [try: m except ...: h e], the handler choosing the exceptions it
    takes: [None] lets the exception through. *)
Definition try_except {A} (m : M A) (h : exn -> option (M A)) : M A :=
  match snd m with
  | Return a => m
  | Raise e =>
      match h e with
      | Some m' => (fst m ++ fst m', snd m')
      | None => m
      end
  end.

Definition lift {A} (o : outcome A) : M A := ([], o).

Record CompletedProcess := Completed { stdout : str; stderr : str }.

(** [subprocess.run(argv, cwd=cwd, capture_output=True, text=True,
    check=True)].  The output is decoded while it is collected, before the
    exit status is looked at: output that does not decode raises
    [UnicodeDecodeError], a [ValueError], whatever the status. *)
Definition subprocess_run (exec : executor) (argv : list str)
    (cwd : option str) : M CompletedProcess :=
  let i := Invocation cwd argv in
  ([i],
   match exec i with
   | Exited rc out err =>
       if (rc =? 0)%Z then Return (Completed out err)
       else Raise (CalledProcessError argv (Some err))
   | Undecodable _ => Raise ValueError
   | NotStarted e => Raise e
   end).

(** A root of the host session: [root.uri.path]. *)
Record root := Root { uri_path : option str }.

(** [mcp.get_context()] followed by [context.session.list_roots()]:
    the roots, or the exception either step raised. *)
Definition host := outcome (list root).

End Exec.

Declare Scope py_scope.
Delimit Scope py_scope with py.
Notation "x <- m ;; k" := (Exec.bind m (fun x => k))
  (at level 61, m at next level, right associativity) : py_scope.
Notation "m ;;; k" := (Exec.bind m (fun _ => k))
  (at level 61, right associativity) : py_scope.

(* ===================================================================== *)
(** * server.py *)
(* ===================================================================== *)

Module Server.
Import Py Re Json Exec.
Local Open Scope py_scope.

Definition jstr (s : string) : json := JStr (lit s).
Definition key (s : string) : str := lit s.

(** r"(\d+)\s+files?\s+changed" *)
Definition re_files : pattern :=
  [Piece true Plus Digit; Piece false Plus Space]
    ++ chars "file" ++ [Piece false Opt (Chr (N_of_ascii "s"))]
    ++ [Piece false Plus Space] ++ chars "changed".

(** r"(\d+)\s+insertions?\(\+\)" *)
Definition re_insertions : pattern :=
  [Piece true Plus Digit; Piece false Plus Space]
    ++ chars "insertion" ++ [Piece false Opt (Chr (N_of_ascii "s"))]
    ++ chars "(+)".

(** r"(\d+)\s+deletions?\(-\)" *)
Definition re_deletions : pattern :=
  [Piece true Plus Digit; Piece false Plus Space]
    ++ chars "deletion" ++ [Piece false Opt (Chr (N_of_ascii "s"))]
    ++ chars "(-)".

(** The line appended to a cut diff:
    f"\n--- Diff truncated at {max_diff_lines} lines ---" *)
Definition truncation_marker (max_diff_lines : Z) : str :=
  [LF] ++ lit "--- Diff truncated at " ++ format_int max_diff_lines
       ++ lit " lines ---".

(** Step 4, the loop over the lines of the name-and-status listing. *)
Fixpoint changed_files_of (lines : list str) : list json :=
  match lines with
  | [] => []
  | line :: rest =>
      if negb (truthy (strip line)) then changed_files_of rest
      else
        let parts := split TAB line in
        let status := hd [] parts in          (* parts[0]  *)
        let path := last parts [] in          (* parts[-1] *)
        JObj [(key "path", JStr path); (key "status", JStr status)]
          :: changed_files_of rest
  end.

(** Step 6, the cut of the diff: the lines kept and the flag. *)
Definition truncate_diff (lines : list str) (max_diff_lines : Z)
  : list str * bool :=
  if (Z.of_nat (length lines) >? max_diff_lines)%Z
  then (slice_to lines max_diff_lines
          ++ [truncation_marker max_diff_lines], true)
  else (lines, false).

Section Tools.
Context {U : UnicodeDecimal}.

(** The process executor and the host of the session. *)
Variable exec : executor.
Variable list_roots : host.

(** Step 5, one count: [m = re.search(ps, numstat)], then
    [int(m.group(1))] if [m], else the initial 0. *)
Definition count_of (ps : pattern) (numstat : str) : M Z :=
  match search ps numstat with
  | Some m =>
      match int (group1 ps m) with
      | Some n => ret n
      | None => raise ValueError
      end
  | None => ret 0%Z
  end.

(** Step 1, the working directory. *)
Definition resolve_working_dir (cwd_from_root : bool)
  : M (option str) :=
  if cwd_from_root then
    try_except
      (roots <- lift list_roots ;;
       match roots with
       | r :: _ => ret (uri_path r)
       | [] => ret None
       end)
      (fun e =>
         match e with
         | ValueError | AttributeError => Some (ret None)
         | _ => None
         end)
  else ret None.

Definition run_git (working_dir : option str) (args : list str)
  : M CompletedProcess :=
  subprocess_run exec (lit "git" :: args) working_dir.

Definition analyze_file_changes
    (base_branch : str) (include_diff : bool) (max_diff_lines : Z)
    (cwd_from_root : bool) (pathspec : str) : M json :=
  try_except
    (working_dir <- resolve_working_dir cwd_from_root ;;
     run_git working_dir [lit "--version"] ;;;
     run_git working_dir [lit "rev-parse"; lit "--is-inside-work-tree"] ;;;
     let range_spec := base_branch ++ lit "...HEAD" in
     let extra := if truthy pathspec then [pathspec] else [] in
     p <- run_git working_dir
            ([lit "diff"; lit "--name-status"; range_spec] ++ extra) ;;
     let changed_files := changed_files_of (splitlines (stdout p)) in
     p <- run_git working_dir
            ([lit "diff"; lit "--shortstat"; range_spec] ++ extra) ;;
     let numstat := strip (stdout p) in
     files <- count_of re_files numstat ;;
     insertions <- count_of re_insertions numstat ;;
     deletions <- count_of re_deletions numstat ;;
     let result :=
       [(key "base_branch", JStr base_branch);
        (key "changed_files", JArr changed_files);
        (key "summary",
         JObj [(key "files", JInt files);
               (key "insertions", JInt insertions);
               (key "deletions", JInt deletions)])] in
     if include_diff then
       p <- run_git working_dir
              ([lit "diff"; range_spec]
                 ++ (if truthy pathspec then [lit "--"; pathspec]
                     else [])) ;;
       let (lines, truncated) :=
         truncate_diff (splitlines (stdout p)) max_diff_lines in
       ret (JObj (result ++ [(key "diff", JStr (join [LF] lines));
                             (key "truncated", JBool truncated)]))
     else ret (JObj result))
    (fun e =>
       match e with
       | CalledProcessError cmd err =>
           Some (ret (JObj
             [(key "error", jstr "git_failed");
              (key "cmd", JArr (map JStr cmd));
              (key "stderr",
               JStr (strip (match err with
                            | Some t => if truthy t then t else []
                            | None => []
                            end)))]))
       | FileNotFoundError =>
           Some (ret (JObj
             [(key "error", jstr "git_not_found");
              (key "hint",
               jstr "Git is not installed or not in PATH.")]))
       | _ => None
       end).

(** The stub of the starter file. *)
Definition get_pr_templates : M json :=
  ret (JObj [(key "error", jstr "Not implemented yet");
             (key "hint", jstr "Read templates from TEMPLATES_DIR")]).

(** The stub of the starter file. *)
Definition suggest_template (changes_summary change_type : str)
  : M json :=
  ret (JObj [(key "error", jstr "Not implemented yet");
             (key "hint", jstr "Map change_type to templates")]).

End Tools.
End Server.

Import Py Re Json Exec Server.
Local Open Scope py_scope.

(* ===================================================================== *)
(** * Vocabulary of the properties *)
(* ===================================================================== *)

(** The least table of decimal digits, the ten of ASCII, with the limit
    of an interpreter as it is installed: 4300 digits. *)
Definition ascii_table : UnicodeDecimal :=
  {| decimal := ascii_decimal;
     decimal_ascii := fun c _ => eq_refl;
     max_str_digits := 4300;
     max_str_digits_floor :=
       or_intror (proj1 (N.leb_le 640 4300) eq_refl) |}.

(** ** The commands of one analysis *)

Definition range_spec (base_branch : str) : str :=
  base_branch ++ lit "...HEAD".

Definition scope (pathspec : str) : list str :=
  if truthy pathspec then [pathspec] else [].

Definition version_cmd : list str := [lit "git"; lit "--version"].

Definition work_tree_cmd : list str :=
  [lit "git"; lit "rev-parse"; lit "--is-inside-work-tree"].

Definition name_status_cmd (base_branch pathspec : str) : list str :=
  [lit "git"; lit "diff"; lit "--name-status"; range_spec base_branch]
    ++ scope pathspec.

Definition shortstat_cmd (base_branch pathspec : str) : list str :=
  [lit "git"; lit "diff"; lit "--shortstat"; range_spec base_branch]
    ++ scope pathspec.

Definition diff_cmd (base_branch pathspec : str) : list str :=
  [lit "git"; lit "diff"; range_spec base_branch]
    ++ (if truthy pathspec then [lit "--"; pathspec] else []).

(** The commands of steps 2 to 5, in order. *)
Definition collect_cmds (base_branch pathspec : str) : list (list str) :=
  [version_cmd; work_tree_cmd;
   name_status_cmd base_branch pathspec;
   shortstat_cmd base_branch pathspec].

(** The command exits with status 0 and prints [out], decoded. *)
Definition prints (exec : executor) (wd : option str) (cmd : list str)
    (out : str) : Prop :=
  exists err, exec (Invocation wd cmd) = Exited 0 out err.

(** ** Counts of the statistics line *)

Section Counts.
Context {U : UnicodeDecimal}.

(** The value [count_of] returns when it returns; 0 stands in where [int]
    raises. *)
Definition count (ps : pattern) (numstat : str) : Z :=
  match search ps numstat with
  | Some m =>
      match int (group1 ps m) with
      | Some n => n
      | None => 0%Z
      end
  | None => 0%Z
  end.

Definition summary_of (stats : str) : json :=
  let numstat := strip stats in
  JObj [(key "files", JInt (count re_files numstat));
        (key "insertions", JInt (count re_insertions numstat));
        (key "deletions", JInt (count re_deletions numstat))].
End Counts.

(** The three counts of step 5 are read: no [int] raises. *)
Definition readable {U : UnicodeDecimal} (numstat : str) : Prop :=
  count_of re_files numstat = ret (count re_files numstat)
  /\ count_of re_insertions numstat = ret (count re_insertions numstat)
  /\ count_of re_deletions numstat = ret (count re_deletions numstat).

(** The commands of steps 1 to 5 go through: the working directory is
    [wd] and the four commands exit with status 0 and output that
    decodes, the listing being [names] and the statistics [stats]. *)
Record commands_succeed (exec : executor) (list_roots : host)
    (cwd_from_root : bool) (base_branch pathspec : str) (wd : option str)
    (names stats : str) : Prop := {
  succeed_wd :
    snd (resolve_working_dir list_roots cwd_from_root) = Return wd;
  succeed_version : exists out, prints exec wd version_cmd out;
  succeed_work_tree : exists out, prints exec wd work_tree_cmd out;
  succeed_names :
    prints exec wd (name_status_cmd base_branch pathspec) names;
  succeed_stats :
    prints exec wd (shortstat_cmd base_branch pathspec) stats
}.

(** Steps 1 to 5 go through: the commands succeed and the counts of the
    statistics are read. *)
Record collects {U : UnicodeDecimal} (exec : executor) (list_roots : host)
    (cwd_from_root : bool) (base_branch pathspec : str) (wd : option str)
    (names stats : str) : Prop := {
  collects_commands :
    commands_succeed exec list_roots cwd_from_root base_branch pathspec
                     wd names stats;
  collects_counts : readable (strip stats)
}.

(** ** The two halves of [analyze_file_changes] and its boundary *)

Section Halves.
Context {U : UnicodeDecimal}.
Variable exec : executor.

(** Steps 2 to 5 in the working directory [working_dir]: the fields of
    [result]. *)
Definition collect (base_branch pathspec : str)
    (working_dir : option str) : M (list (str * json)) :=
  run_git exec working_dir [lit "--version"] ;;;
  run_git exec working_dir
    [lit "rev-parse"; lit "--is-inside-work-tree"] ;;;
  let range_spec := base_branch ++ lit "...HEAD" in
  let extra := if truthy pathspec then [pathspec] else [] in
  p <- run_git exec working_dir
         ([lit "diff"; lit "--name-status"; range_spec] ++ extra) ;;
  let changed_files := changed_files_of (splitlines (stdout p)) in
  p <- run_git exec working_dir
         ([lit "diff"; lit "--shortstat"; range_spec] ++ extra) ;;
  let numstat := strip (stdout p) in
  files <- count_of re_files numstat ;;
  insertions <- count_of re_insertions numstat ;;
  deletions <- count_of re_deletions numstat ;;
  ret [(key "base_branch", JStr base_branch);
       (key "changed_files", JArr changed_files);
       (key "summary",
        JObj [(key "files", JInt files);
              (key "insertions", JInt insertions);
              (key "deletions", JInt deletions)])].

(** Step 6, under [if include_diff]. *)
Definition fetch_diff (base_branch : str) (max_diff_lines : Z)
    (pathspec : str) (working_dir : option str)
    (result : list (str * json)) : M json :=
  p <- run_git exec working_dir
         ([lit "diff"; base_branch ++ lit "...HEAD"]
            ++ (if truthy pathspec then [lit "--"; pathspec] else [])) ;;
  let (lines, truncated) :=
    truncate_diff (splitlines (stdout p)) max_diff_lines in
  ret (JObj (result ++ [(key "diff", JStr (join [LF] lines));
                        (key "truncated", JBool truncated)])).
End Halves.

(** The two [except] clauses. *)
Definition git_failed_doc (cmd : list str) (err : option str) : json :=
  JObj [(key "error", jstr "git_failed");
        (key "cmd", JArr (map JStr cmd));
        (key "stderr",
         JStr (strip (match err with
                      | Some t => if truthy t then t else []
                      | None => []
                      end)))].

Definition git_not_found_doc : json :=
  JObj [(key "error", jstr "git_not_found");
        (key "hint", jstr "Git is not installed or not in PATH.")].

Definition boundary (e : exn) : option (M json) :=
  match e with
  | CalledProcessError cmd err => Some (ret (git_failed_doc cmd err))
  | FileNotFoundError => Some (ret git_not_found_doc)
  | _ => None
  end.

(** ** Reading a returned document *)

Definition returned {A} (m : M A) : option A :=
  match snd m with
  | Return a => Some a
  | Raise _ => None
  end.

Definition is_error (doc : json) : bool :=
  match field "error" doc with Some _ => true | None => false end.

Definition diff_of (doc : json) : option str :=
  match field "diff" doc with Some (JStr s) => Some s | _ => None end.

Definition truncated_of (doc : json) : option bool :=
  match field "truncated" doc with Some (JBool b) => Some b | _ => None end.

(** The computation returns a document that is not an error. *)
Definition is_error_free (m : M json) : bool :=
  match returned m with
  | Some doc => negb (is_error doc)
  | None => false
  end.

(** ** A repository to run against *)

Definition cmd_eqb (a b : list str) : bool :=
  if list_eq_dec (list_eq_dec N.eq_dec) a b then true else false.

Definition main : str := lit "main".

(** A working tree with a branch [main], compared without a pathspec:
    what git prints for the listing, the statistics and the diff. *)
Definition repository (names stats raw : str) : executor :=
  fun i =>
    let cmd := argv i in
    if cmd_eqb cmd version_cmd
    then Exited 0 (lit "git version 2.43.0" ++ [LF]) []
    else if cmd_eqb cmd work_tree_cmd
    then Exited 0 (lit "true" ++ [LF]) []
    else if cmd_eqb cmd (name_status_cmd main [])
    then Exited 0 names []
    else if cmd_eqb cmd (shortstat_cmd main [])
    then Exited 0 stats []
    else if cmd_eqb cmd (diff_cmd main [])
    then Exited 0 raw []
    else Exited 129 [] (lit "usage: git diff [<options>]" ++ [LF]).

(** Lines ended by "\n", as git prints them. *)
Definition text (lines : list string) : str :=
  flat_map (fun l => lit l ++ [LF]) lines.

(** Rows of columns separated by tabs, each ended by "\n", as git prints
    a name-and-status listing. *)
Definition listing (rows : list (list string)) : str :=
  flat_map (fun columns => join [TAB] (map lit columns) ++ [LF]) rows.

(** A listing with one modified file and one renamed file. *)
Definition names_with_rename : str :=
  listing [["M"; "a.py"]; ["R100"; "old.py"; "new.py"]]%string.

(** ** The sentences of the specification that the code does not meet *)

(** The cut as the specification words it: above the cap the lines of the
    returned diff are the first [max_diff_lines] raw lines and one marker
    line, [max_diff_lines + 1] lines in all. *)
Definition cut_as_specified (raw : str) (max_diff_lines : Z) (doc : json)
  : Prop :=
  let lines := splitlines raw in
  let L := Z.of_nat (length lines) in
  (truncated_of doc = Some true <-> (L > max_diff_lines)%Z) /\
  ((L > max_diff_lines)%Z ->
   exists diff marker,
     diff_of doc = Some diff /\
     splitlines diff = firstn (Z.to_nat max_diff_lines) lines ++ [marker] /\
     Z.of_nat (length (splitlines diff)) = (max_diff_lines + 1)%Z).

(** The round trip as the specification words it: at or below the cap the
    returned diff is the raw text itself. *)
Definition round_trip_as_specified (raw : str) (max_diff_lines : Z)
    (doc : json) : Prop :=
  (Z.of_nat (length (splitlines raw)) <= max_diff_lines)%Z ->
  diff_of doc = Some raw /\ truncated_of doc = Some false.

(** ** The listing of changed files *)

(** A line the loop of step 4 keeps. *)
Definition nonblank (line : str) : bool := truthy (strip line).

(** The record the loop appends for a line. *)
Definition record_of (line : str) : json :=
  JObj [(key "path", JStr (last (split TAB line) []));
        (key "status", JStr (hd [] (split TAB line)))].

Definition status_of (record : json) : option str :=
  match field "status" record with Some (JStr s) => Some s | _ => None end.

Definition no_tab (f : str) : Prop := Forall (fun c => c <> TAB) f.

(** The statuses as the specification words them: one letter each. *)
Definition statuses_as_specified (doc : json) : Prop :=
  exists records,
    field "changed_files" doc = Some (JArr records) /\
    Forall (fun r => exists c, status_of r = Some [c]) records.

(** ** Templates *)

(** A template directory: the files, each with its base name and text. *)
Definition directory := list (str * str).

(** The document the specification asks of [get_pr_templates]: one
    descriptor per file, its content the text of the file. *)
Definition templates_document (dir : directory) (doc : json) : Prop :=
  exists descriptors,
    doc = JObj [(key "templates", JArr descriptors)] /\
    length descriptors = length dir /\
    Forall2 (fun file d =>
               exists name,
                 d = JObj [(key "name", JStr name);
                           (key "content", JStr (snd file))])
            dir descriptors.

(** The document the specification asks of [suggest_template]. *)
Definition suggestion_result (doc : json) : Prop :=
  exists template content rationale,
    doc = JObj [(key "template", JStr template);
                (key "content", JStr content);
                (key "rationale", JStr rationale)].

(** What the two stubs return. *)
Definition templates_stub_doc : json :=
  JObj [(key "error", jstr "Not implemented yet");
        (key "hint", jstr "Read templates from TEMPLATES_DIR")].

Definition suggestion_stub_doc : json :=
  JObj [(key "error", jstr "Not implemented yet");
        (key "hint", jstr "Map change_type to templates")].

(** ** Git missing, the host failing *)

(** No executable to start: every [subprocess.run] raises
    [FileNotFoundError]. *)
Definition git_not_invocable (exec : executor) : Prop :=
  forall i, exec i = NotStarted FileNotFoundError.

Definition no_git : executor := fun _ => NotStarted FileNotFoundError.

(** A host whose client does not answer the request for roots. *)
Definition host_without_roots : host :=
  Raise (OtherException "McpError").

(** The missing tool as the specification words it: whatever else the
    call meets, the answer is the [git_not_found] document. *)
Definition not_found_as_specified {U : UnicodeDecimal} (exec : executor)
    (list_roots : host) (base_branch : str) (include_diff : bool)
    (max_diff_lines : Z) (cwd_from_root : bool) (pathspec : str) : Prop :=
  git_not_invocable exec ->
  returned (analyze_file_changes exec list_roots base_branch include_diff
              max_diff_lines cwd_from_root pathspec)
  = Some git_not_found_doc.

(** ** Failing commands *)

(** A computation answers every invocation of its own that exits with a
    status other than 0 by raising [CalledProcessError] with the command
    and its standard error. *)
Definition raises_on_failure (exec : executor) {A} (m : M A) : Prop :=
  forall i rc out err,
    In i (fst m) -> exec i = Exited rc out err -> rc <> 0%Z ->
    snd m = Raise (CalledProcessError (argv i) (Some err)).

(** ** The working directory *)

(** Every command of the computation runs in [wd]. *)
Definition runs_in (wd : option str) {A} (m : M A) : Prop :=
  Forall (fun i => cwd i = wd) (fst m).

(** The fallback as the specification words it: a host that throws,
    whatever it throws, or that has no root to offer leaves the call as
    it is without [cwd_from_root]. *)
Definition fallback_as_specified {U : UnicodeDecimal} (exec : executor)
    (list_roots : host) (base_branch : str) (include_diff : bool)
    (max_diff_lines : Z) (pathspec : str) : Prop :=
  (list_roots = Return [] \/ exists e, list_roots = Raise e) ->
  analyze_file_changes exec list_roots base_branch include_diff
    max_diff_lines true pathspec
  = analyze_file_changes exec list_roots base_branch include_diff
      max_diff_lines false pathspec.

(** ** The clauses of a statistics line *)

Inductive kind := Files | Insertions | Deletions.

Definition kind_eqb (a b : kind) : bool :=
  match a, b with
  | Files, Files | Insertions, Insertions | Deletions, Deletions => true
  | _, _ => false
  end.

(** One clause: what it counts, the count, and whether the noun is
    written in the plural. *)
Record clause := Clause { counted : kind; number : N; plural : bool }.

(** The pattern that reads the clauses of a kind. *)
Definition pattern_of (k : kind) : pattern :=
  match k with
  | Files => re_files
  | Insertions => re_insertions
  | Deletions => re_deletions
  end.

(** The words of a clause, after its number: " file(s) changed",
    " insertion(s)(+)", " deletion(s)(-)". *)
Definition words (k : kind) (pl : bool) : str :=
  let s := if pl then lit "s" else [] in
  match k with
  | Files => lit " file" ++ s ++ lit " changed"
  | Insertions => lit " insertion" ++ s ++ lit "(+)"
  | Deletions => lit " deletion" ++ s ++ lit "(-)"
  end.

Definition render (c : clause) : str :=
  format_int (Z.of_N (number c)) ++ words (counted c) (plural c).

(** The number of a clause has no more digits than [int] accepts. *)
Definition within_limit {U : UnicodeDecimal} (c : clause) : Prop :=
  exceeds_limit (length (format_int (Z.of_N (number c)))) = false.

(** A statistics line: clauses separated by ", ". *)
Definition line_of (cs : list clause) : str :=
  join (lit ", ") (map render cs).

(** The count of the first clause of a kind, 0 when there is none. *)
Definition first_of (k : kind) (cs : list clause) : Z :=
  match find (fun c => kind_eqb (counted c) k) cs with
  | Some c => Z.of_N (number c)
  | None => 0%Z
  end.

Definition ascii_digit (c : char) : Prop := (48 <= c <= 57)%N.

(** The rest of a pattern turns away a text that opens with a digit. *)
Definition rejects_digits (K : str -> option (list str)) : Prop :=
  forall d s, ascii_digit d -> K (d :: s) = None.

(** The text does not open with a decimal digit. *)
Definition no_digit_head {U : UnicodeDecimal} (s : str) : Prop :=
  match s with
  | [] => True
  | c :: _ => accepts Digit c = false
  end.

(** A pattern without its opening [(\d+)]. *)
Definition tail_of (k : kind) : pattern := tl (pattern_of k).

(** The noun of a clause. *)
Definition noun (k : kind) : string :=
  match k with
  | Files => "file"
  | Insertions => "insertion"
  | Deletions => "deletion"
  end.

(** The statistics of the two examples of the specification, as git
    prints them. *)
Definition stats_three_clauses : str :=
  lit " 3 files changed, 20 insertions(+), 5 deletions(-)" ++ [LF].

Definition stats_no_insertion : str :=
  lit " 1 file changed, 4 deletions(-)" ++ [LF].

(** A statistics line whose count of files has 4301 digits. *)
Definition stats_long_count : str :=
  lit " " ++ repeat 49%N 4301 ++ lit " files changed" ++ [LF].

(** The summary of a document, with its three counts. *)
Definition summary_is (doc : json) (files insertions deletions : Z)
  : Prop :=
  field "summary" doc
  = Some (JObj [(key "files", JInt files);
                (key "insertions", JInt insertions);
                (key "deletions", JInt deletions)]).

(** The summary as the specification words it: whatever the statistics
    line, the call returns a document with the three counts. *)
Definition summary_as_specified {U : UnicodeDecimal} (exec : executor)
    (list_roots : host) (base_branch : str) (include_diff : bool)
    (max_diff_lines : Z) (cwd_from_root : bool) (pathspec : str) : Prop :=
  exists doc files insertions deletions,
    returned (analyze_file_changes exec list_roots base_branch include_diff
                max_diff_lines cwd_from_root pathspec) = Some doc
    /\ summary_is doc files insertions deletions.

(** [w] occurs in [s]. *)
Definition occurs (w s : str) : Prop := exists a b, s = a ++ w ++ b.

(** What one piece may take. *)
Definition takes {U : UnicodeDecimal} (p : piece) (t : str) : Prop :=
  match rep p with
  | One => exists c, t = [c] /\ accepts (what p) c = true
  | Opt => t = [] \/ exists c, t = [c] /\ accepts (what p) c = true
  | Plus => t <> [] /\ Forall (fun c => accepts (what p) c = true) t
  end.

(** ** Further vocabulary *)

(** Nothing but whitespace. *)
Definition blank (s : str) : Prop := Forall (fun c => isspace c = true) s.

(** A pattern that opens with [(\d+)]. *)
Definition opens_with_number (ps : pattern) : Prop :=
  exists k, ps = Piece true Plus Digit :: k.

(** A pattern made of [(\d+)], captured or not, and of what follows. *)
Definition number_then (cap : bool) (k : pattern) : pattern :=
  Piece cap Plus Digit :: k.

(** The fields of [result]. *)
Definition result_of {U : UnicodeDecimal} (base_branch names stats : str)
  : list (str * json) :=
  [(key "base_branch", JStr base_branch);
   (key "changed_files", JArr (changed_files_of (splitlines names)));
   (key "summary", summary_of stats)].

(** No line boundary inside. *)
Definition one_line (l : str) : Prop :=
  Forall (fun c => is_linebreak c = false) l.

(** ** The listing as git prints it *)

(** A column of an entry: no tab and no line boundary inside. *)
Definition column (f : str) : Prop := no_tab f /\ one_line f.

(** An entry of the listing: its columns, the status first and the path
    last. *)
Definition entry (columns : list str) : Prop :=
  columns <> [] /\ Forall column columns.

(** The line of an entry, its columns separated by tabs. *)
Definition entry_line (columns : list str) : str := join [TAB] columns.

(** The listing of entries, each line ended by "\n". *)
Definition printed (entries : list (list str)) : str :=
  flat_map (fun columns => entry_line columns ++ [LF]) entries.

(** Some character of the text is not whitespace. *)
Definition has_ink (l : str) : bool :=
  existsb (fun c => negb (isspace c)) l.

(** The line of the entry is not blank. *)
Definition inked (columns : list str) : bool :=
  has_ink (entry_line columns).

(** The record of an entry: its last column as path, its first as
    status. *)
Definition entry_record (columns : list str) : json :=
  JObj [(key "path", JStr (last columns []));
        (key "status", JStr (hd [] columns))].

(** A modified file, a blank line and a renamed file. *)
Definition entries_with_blank_line : list (list str) :=
  [[lit "M"; lit "a.py"]; [[]]; [lit "R100"; lit "old.py"; lit "new.py"]].

(** One added file whose name holds U+2028, LINE SEPARATOR. *)
Definition names_with_separator : str :=
  lit "A" ++ [TAB] ++ lit "a" ++ [8232%N] ++ lit "b.txt" ++ [LF].

(** ** A failure that does not decode *)

(** The exit status of a child that ran to its end. *)
Definition exit_status (s : spawned) : option Z :=
  match s with
  | Exited rc _ _ => Some rc
  | Undecodable rc => Some rc
  | NotStarted _ => None
  end.

(** The failure as the specification words it: a command of the call that
    exits with a status other than 0 makes the call return the
    [git_failed] document. *)
Definition failure_as_specified {U : UnicodeDecimal} (exec : executor)
    (list_roots : host) (base_branch : str) (include_diff : bool)
    (max_diff_lines : Z) (cwd_from_root : bool) (pathspec : str) : Prop :=
  forall i rc,
    In i (fst (analyze_file_changes exec list_roots base_branch
                 include_diff max_diff_lines cwd_from_root pathspec)) ->
    exit_status (exec i) = Some rc -> rc <> 0%Z ->
    exists doc,
      returned (analyze_file_changes exec list_roots base_branch
                  include_diff max_diff_lines cwd_from_root pathspec)
      = Some doc
      /\ field "error" doc = Some (jstr "git_failed").

(** A git that exits with status 128 on the listing and whose complaint
    does not decode as text. *)
Definition garbled_complaint : executor :=
  fun i =>
    if cmd_eqb (argv i) (name_status_cmd main [])
    then Undecodable 128
    else repository [] [] [] i.

(** A character of the text of an integer. *)
Definition sign_or_digit (c : char) : Prop :=
  c = 45%N \/ (48 <= c <= 57)%N.

(** A computation returns only values that satisfy [P]. *)
Definition returns_only {A} (P : A -> Prop) (m : M A) : Prop :=
  forall a, snd m = Return a -> P a.

(** ** Vocabulary of the further properties *)

(** What [subprocess.run(..., check=True)] raises for an invocation:
    nothing when the child exits with status 0. *)
Definition spawn_exn (exec : executor) (i : invocation) : option exn :=
  match exec i with
  | Exited rc _ err =>
      if (rc =? 0)%Z then None
      else Some (CalledProcessError (argv i) (Some err))
  | Undecodable _ => Some ValueError
  | NotStarted e => Some e
  end.

(** The invocation ran and exited with status 0. *)
Definition succeeded (exec : executor) (i : invocation) : Prop :=
  exists out err, exec i = Exited 0 out err.

(** A computation stops at the first invocation that does not succeed and
    raises what that invocation raised. *)
Definition fail_fast (exec : executor) {A} (m : M A) : Prop :=
  (forall i e, In i (fst m) -> spawn_exn exec i = Some e ->
               snd m = Raise e)
  /\ Forall (succeeded exec) (removelast (fst m)).

(** The body of the outer [try] of [analyze_file_changes]. *)
Definition analysis {U : UnicodeDecimal} (exec : executor)
    (list_roots : host) (base_branch : str) (include_diff : bool)
    (max_diff_lines : Z) (cwd_from_root : bool) (pathspec : str) : M json :=
  wd <- resolve_working_dir list_roots cwd_from_root ;;
  result <- collect exec base_branch pathspec wd ;;
  if include_diff
  then fetch_diff exec base_branch max_diff_lines pathspec wd result
  else ret (JObj result).

(** The commands of a whole call, in order. *)
Definition commands_of (base_branch pathspec : str) (include_diff : bool)
  : list (list str) :=
  collect_cmds base_branch pathspec
    ++ (if include_diff then [diff_cmd base_branch pathspec] else []).

(** The keys of a document that reports changes. *)
Definition success_keys (include_diff : bool) : list str :=
  [key "base_branch"; key "changed_files"; key "summary"]
    ++ (if include_diff then [key "diff"; key "truncated"] else []).

(** A machine on which the directory of the first root is gone: every
    command asked to run in a directory cannot be started. *)
Definition directory_gone : executor :=
  fun i =>
    match cwd i with
    | Some _ => NotStarted FileNotFoundError
    | None => repository [] [] [] i
    end.

(** A git that is there and may not be executed. *)
Definition git_not_executable : executor :=
  fun _ => NotStarted (OtherException "PermissionError").

(** The record of a line taken whole, as path and as status. *)
Definition whole_line_record (line : str) : json :=
  JObj [(key "path", JStr line); (key "status", JStr line)].

(** The document of a comparison without changes. *)
Definition no_change_doc (base_branch : str) : json :=
  JObj [(key "base_branch", JStr base_branch);
        (key "changed_files", JArr []);
        (key "summary",
         JObj [(key "files", JInt 0); (key "insertions", JInt 0);
               (key "deletions", JInt 0)]);
        (key "diff", JStr []);
        (key "truncated", JBool false)].


(* ===================================================================== *)
(** * Properties *)
(* ===================================================================== *)

(** ** The monad *)

Lemma bind_return {A B} (t : list invocation) (a : A) (k : A -> M B) :
  bind (t, Return a) k = (t ++ fst (k a), snd (k a)).
Proof. reflexivity. Qed.

Lemma bind_raise {A B} (t : list invocation) (e : exn) (k : A -> M B) :
  bind (t, Raise e) k = (t, Raise e).
Proof. reflexivity. Qed.

Lemma bind_ret {A B} (a : A) (k : A -> M B) : bind (ret a) k = k a.
Proof. unfold bind, ret; simpl. now destruct (k a). Qed.

(** ** The matcher is sound *)

Section MatcherSound.
Context {U : UnicodeDecimal}.

Lemma one_then_sound ok k s m :
  one_then ok k s = Some m ->
  exists c s' m', s = c :: s' /\ ok c = true /\ k s' = Some m'
                  /\ m = [c] :: m'.
Proof.
  destruct s as [|c s']; simpl; [discriminate|].
  destruct (ok c) eqn:E; [|discriminate].
  destruct (k s') as [m'|] eqn:K; simpl; [|discriminate].
  intros [= <-]. now exists c, s', m'.
Qed.

Lemma plus_then_sound ok k s t m :
  plus_then ok k s = Some (t, m) ->
  t <> [] /\ Forall (fun c => ok c = true) t
  /\ exists s', s = t ++ s' /\ k s' = Some m.
Proof.
  revert t m. induction s as [|c s' IH]; simpl; intros t m; [discriminate|].
  destruct (ok c) eqn:E; [|discriminate].
  destruct (plus_then ok k s') as [[t' m']|] eqn:P.
  - intros [= <- <-]. destruct (IH _ _ eq_refl) as (_ & F & r & -> & K).
    split; [discriminate|]. split; [now constructor|].
    now exists r.
  - destruct (k s') as [m'|] eqn:K; simpl; [|discriminate].
    intros [= <- <-]. split; [discriminate|].
    split; [now repeat constructor|]. now exists s'.
Qed.

Lemma match_here_sound ps : forall s m,
  match_here ps s = Some m ->
  Forall2 takes ps m /\ exists rest, s = concat m ++ rest.
Proof.
  induction ps as [|p ps IH]; simpl; intros s m.
  - intros [= <-]. split; [constructor|]. now exists s.
  - destruct (rep p) eqn:R.
    + intros H. apply one_then_sound in H.
      destruct H as (c & s' & m' & -> & E & K & ->).
      destruct (IH _ _ K) as (F & rest & ->).
      split; [|now exists rest].
      constructor; [|assumption]. unfold takes. rewrite R. now exists c.
    + destruct (one_then _ _ s) as [m1|] eqn:O.
      * intros [= <-]. apply one_then_sound in O.
        destruct O as (c & s' & m' & -> & E & K & ->).
        destruct (IH _ _ K) as (F & rest & ->).
        split; [|now exists rest].
        constructor; [|assumption]. unfold takes. rewrite R.
        right. now exists c.
      * destruct (match_here ps s) as [m'|] eqn:K; simpl; [|discriminate].
        intros [= <-]. destruct (IH _ _ K) as (F & rest & ->).
        split; [|now exists rest].
        constructor; [|assumption]. unfold takes. rewrite R. now left.
    + destruct (plus_then _ _ s) as [[t m']|] eqn:P; simpl; [|discriminate].
      intros [= <-]. apply plus_then_sound in P.
      destruct P as (N & F & s' & -> & K).
      destruct (IH _ _ K) as (F' & rest & ->).
      split.
      * constructor; [|assumption]. unfold takes. now rewrite R.
      * exists rest. simpl. now rewrite app_assoc.
Qed.

Lemma search_sound ps : forall s m,
  search ps s = Some m ->
  Forall2 takes ps m /\ exists pre rest, s = pre ++ concat m ++ rest.
Proof.
  induction s as [|c s IH]; simpl; intros m.
  - destruct (match_here ps []) as [m'|] eqn:H; [|discriminate].
    intros [= <-]. destruct (match_here_sound _ _ H) as (F & rest & E).
    split; [assumption|]. now exists [], rest.
  - destruct (match_here ps (c :: s)) as [m'|] eqn:H.
    + intros [= <-]. destruct (match_here_sound _ _ H) as (F & rest & E).
      split; [assumption|]. now exists [], rest.
    + intros S. destruct (IH _ S) as (F & pre & rest & ->).
      split; [assumption|]. now exists (c :: pre), rest.
Qed.

End MatcherSound.

(** ** The monad, continued *)

Lemma bind_assoc {A B C} (m : M A) (f : A -> M B) (g : B -> M C) :
  bind (bind m f) g = bind m (fun a => bind (f a) g).
Proof.
  destruct m as [t [a|e]]; unfold bind; simpl; [|reflexivity].
  destruct (f a) as [t' [b|e]]; simpl; [|reflexivity].
  now rewrite app_assoc.
Qed.

Lemma bind_ext {A B} (m : M A) (f g : A -> M B) :
  (forall a, f a = g a) -> bind m f = bind m g.
Proof.
  intros E. destruct m as [t [a|e]]; unfold bind; simpl; [|reflexivity].
  now rewrite E.
Qed.

Lemma bind_ret_r {A B} (m : M A) (f : A -> B) (g : B -> M json) :
  bind m (fun a => bind (ret (f a)) g) = bind m (fun a => g (f a)).
Proof. apply bind_ext. intros a. apply bind_ret. Qed.

(** ** [analyze_file_changes] in two halves *)

Section Unfold.
Context {U : UnicodeDecimal}.
Variable exec : executor.
Variable list_roots : host.

Lemma analyze_unfold base_branch include_diff max_diff_lines
    cwd_from_root pathspec :
  analyze_file_changes exec list_roots base_branch include_diff
    max_diff_lines cwd_from_root pathspec
  = try_except
      (wd <- resolve_working_dir list_roots cwd_from_root ;;
       result <- collect exec base_branch pathspec wd ;;
       if include_diff
       then fetch_diff exec base_branch max_diff_lines pathspec wd result
       else ret (JObj result))
      boundary.
Proof.
  unfold analyze_file_changes, collect.
  change (fun e : exn => match e with
     | CalledProcessError cmd err => Some (ret (JObj
         [(key "error", jstr "git_failed");
          (key "cmd", JArr (map JStr cmd));
          (key "stderr", JStr (strip match err with
             | Some t => if truthy t then t else []
             | None => [] end))]))
     | FileNotFoundError => Some (ret (JObj
         [(key "error", jstr "git_not_found");
          (key "hint", jstr "Git is not installed or not in PATH.")]))
     | _ => None end) with boundary.
  f_equal. apply bind_ext. intros wd.
  repeat (rewrite bind_assoc; apply bind_ext; intro).
  rewrite bind_ret.
  destruct include_diff; reflexivity.
Qed.
End Unfold.

(** ** Reading the counts *)

Section CountRead.
Context {U : UnicodeDecimal}.

Lemma digits_value_some t : forall acc,
  Forall (fun c => accepts Digit c = true) t ->
  exists n, digits_value acc t = Some n.
Proof.
  induction t as [|c t IH]; simpl; intros acc F.
  - now exists acc.
  - inversion F as [|? ? Hc Ht]; subst. simpl in Hc.
    destruct (decimal c) as [d|]; [|discriminate]. now apply IH.
Qed.

Lemma int_of_digits t :
  t <> [] -> Forall (fun c => accepts Digit c = true) t ->
  exceeds_limit (length t) = false ->
  exists n, int t = Some n.
Proof.
  intros N F L. destruct t as [|c t]; [congruence|].
  unfold int. rewrite L. now apply digits_value_some.
Qed.

Lemma group1_digits ps s m :
  opens_with_number ps -> search ps s = Some m ->
  group1 ps m <> [] /\
  Forall (fun c => accepts Digit c = true) (group1 ps m).
Proof.
  intros [k ->] S. apply search_sound in S. destruct S as (F & _).
  inversion F as [|p t ps' m' T F']; subst.
  unfold group1; simpl. exact T.
Qed.

(** A count is read, and is then the value [count], or [int] raises. *)
Lemma count_of_cases ps s :
  count_of ps s = ret (count ps s) \/ count_of ps s = raise ValueError.
Proof.
  unfold count_of, count. destruct (search ps s) as [m|]; [|now left].
  destruct (int (group1 ps m)); [now left|now right].
Qed.

Lemma count_of_value ps s n : count_of ps s = ret n -> count ps s = n.
Proof.
  destruct (count_of_cases ps s) as [E|E]; rewrite E;
    [now intros [= <-]|discriminate].
Qed.

(** The digits a pattern captured are read when they are not more than
    the interpreter accepts. *)
Lemma count_of_within ps s m :
  opens_with_number ps -> search ps s = Some m ->
  exceeds_limit (length (group1 ps m)) = false ->
  count_of ps s = ret (count ps s).
Proof.
  intros O S L. unfold count_of, count. rewrite S.
  destruct (group1_digits _ O S) as (N & F).
  destruct (int_of_digits N F L) as [n ->]. reflexivity.
Qed.

Lemma count_of_no_match ps s :
  search ps s = None -> count_of ps s = ret 0%Z.
Proof. unfold count_of. now intros ->. Qed.

Lemma re_files_opens : opens_with_number re_files.
Proof. eexists; reflexivity. Qed.
Lemma re_insertions_opens : opens_with_number re_insertions.
Proof. eexists; reflexivity. Qed.
Lemma re_deletions_opens : opens_with_number re_deletions.
Proof. eexists; reflexivity. Qed.

Lemma readable_empty : readable [].
Proof. repeat split. Qed.

Lemma exceeds_limit_le n m :
  (n <= m)%nat -> exceeds_limit m = false -> exceeds_limit n = false.
Proof.
  unfold exceeds_limit. intros H.
  destruct (max_str_digits =? 0)%N; [reflexivity|]. simpl.
  rewrite !N.ltb_ge. lia.
Qed.

Lemma group1_length ps s m :
  opens_with_number ps -> search ps s = Some m ->
  (length (group1 ps m) <= length s)%nat.
Proof.
  intros [k ->] S. apply search_sound in S.
  destruct S as (F & pre & rest & ->).
  inversion F as [|p t ps' m' T F']; subst.
  unfold group1. simpl. rewrite !length_app. lia.
Qed.

Lemma count_of_short ps s :
  opens_with_number ps -> exceeds_limit (length s) = false ->
  count_of ps s = ret (count ps s).
Proof.
  intros O L. destruct (search ps s) as [m|] eqn:S.
  - apply (@count_of_within ps s m O S).
    exact (exceeds_limit_le (@group1_length ps s m O S) L).
  - unfold count. now rewrite (@count_of_no_match ps s S), S.
Qed.

Lemma readable_dec s : readable s \/ ~ readable s.
Proof.
  unfold readable.
  destruct (count_of_cases re_files s) as [F|F];
    [|right; intros [H _]; rewrite F in H; discriminate H].
  destruct (count_of_cases re_insertions s) as [I|I];
    [|right; intros (_ & H & _); rewrite I in H; discriminate H].
  destruct (count_of_cases re_deletions s) as [D|D];
    [|right; intros (_ & _ & H); rewrite D in H; discriminate H].
  now left.
Qed.

(** A text of no more characters than [int] accepts digits is read. *)
Lemma readable_short s : exceeds_limit (length s) = false -> readable s.
Proof.
  intros L. repeat split; apply count_of_short; try assumption.
  - apply re_files_opens.
  - apply re_insertions_opens.
  - apply re_deletions_opens.
Qed.
End CountRead.

(** ** Steps 1 to 5 *)

Section Collect.
Context {U : UnicodeDecimal}.
Variable exec : executor.
Variable list_roots : host.

Lemma resolve_trace cwd_from_root :
  fst (resolve_working_dir list_roots cwd_from_root) = [].
Proof.
  unfold resolve_working_dir. destruct cwd_from_root; [|reflexivity].
  destruct list_roots as [[|r rs]|[]]; reflexivity.
Qed.

Lemma resolve_eta cwd_from_root :
  resolve_working_dir list_roots cwd_from_root
  = ([], snd (resolve_working_dir list_roots cwd_from_root)).
Proof.
  rewrite <- (resolve_trace cwd_from_root) at 1. now destruct resolve_working_dir.
Qed.

Lemma run_git_exited wd args out err A (k : CompletedProcess -> M A) :
  exec (Invocation wd (lit "git" :: args)) = Exited 0 out err ->
  bind (run_git exec wd args) k
  = (Invocation wd (lit "git" :: args) :: fst (k (Completed out err)),
     snd (k (Completed out err))).
Proof.
  intros E. unfold run_git, subprocess_run, bind. simpl. now rewrite E.
Qed.

Lemma run_git_raises wd args A (k : CompletedProcess -> M A) e :
  snd (run_git exec wd args) = Raise e ->
  bind (run_git exec wd args) k
  = ([Invocation wd (lit "git" :: args)], Raise e).
Proof.
  unfold run_git, subprocess_run, bind. simpl. now intros ->.
Qed.

Lemma collects_wd cwd_from_root base_branch pathspec wd names stats :
  collects exec list_roots cwd_from_root base_branch pathspec
           wd names stats ->
  snd (resolve_working_dir list_roots cwd_from_root) = Return wd.
Proof. now intros [[Hwd _ _ _ _] _]. Qed.

Lemma collect_ok cwd_from_root base_branch pathspec wd names stats :
  collects exec list_roots cwd_from_root base_branch pathspec
           wd names stats ->
  collect exec base_branch pathspec wd
  = (map (Invocation wd) (collect_cmds base_branch pathspec),
     Return (result_of base_branch names stats)).
Proof.
  intros [[Hwd [o1 [e1 H1]] [o2 [e2 H2]] [e3 H3] [e4 H4]] (Rf & Ri & Rd)].
  unfold collect.
  rewrite (run_git_exited (args := [lit "--version"]) _ H1).
  rewrite (run_git_exited
             (args := [lit "rev-parse"; lit "--is-inside-work-tree"])
             _ H2).
  rewrite (run_git_exited
             (args := [lit "diff"; lit "--name-status";
                       base_branch ++ lit "...HEAD"]
                ++ (if truthy pathspec then [pathspec] else [])) _ H3).
  rewrite (run_git_exited
             (args := [lit "diff"; lit "--shortstat";
                       base_branch ++ lit "...HEAD"]
                ++ (if truthy pathspec then [pathspec] else [])) _ H4).
  cbn [stdout]. rewrite Rf, bind_ret, Ri, bind_ret, Rd, bind_ret.
  reflexivity.
Qed.

(** When the commands succeed and a count is not read, the [ValueError]
    of [int] is what the collection raises. *)
Lemma collect_unreadable cwd_from_root base_branch pathspec wd names stats :
  commands_succeed exec list_roots cwd_from_root base_branch pathspec
                   wd names stats ->
  ~ readable (strip stats) ->
  collect exec base_branch pathspec wd
  = (map (Invocation wd) (collect_cmds base_branch pathspec),
     Raise ValueError).
Proof.
  intros [Hwd [o1 [e1 H1]] [o2 [e2 H2]] [e3 H3] [e4 H4]] NR.
  unfold collect.
  rewrite (run_git_exited (args := [lit "--version"]) _ H1).
  rewrite (run_git_exited
             (args := [lit "rev-parse"; lit "--is-inside-work-tree"])
             _ H2).
  rewrite (run_git_exited
             (args := [lit "diff"; lit "--name-status";
                       base_branch ++ lit "...HEAD"]
                ++ (if truthy pathspec then [pathspec] else [])) _ H3).
  rewrite (run_git_exited
             (args := [lit "diff"; lit "--shortstat";
                       base_branch ++ lit "...HEAD"]
                ++ (if truthy pathspec then [pathspec] else [])) _ H4).
  cbn [stdout].
  destruct (count_of_cases re_files (strip stats)) as [Rf|Rf];
    rewrite Rf; [rewrite bind_ret|reflexivity].
  destruct (count_of_cases re_insertions (strip stats)) as [Ri|Ri];
    rewrite Ri; [rewrite bind_ret|reflexivity].
  destruct (count_of_cases re_deletions (strip stats)) as [Rd|Rd];
    rewrite Rd; [|reflexivity].
  destruct NR. now repeat split.
Qed.
End Collect.

(** ** A run whose commands all succeed *)

Section Success.
Context {U : UnicodeDecimal}.
Variable exec : executor.
Variable list_roots : host.
Variables (base_branch pathspec : str) (cwd_from_root : bool).
Variables (wd : option str) (names stats : str).
Hypothesis C :
  collects exec list_roots cwd_from_root base_branch pathspec
           wd names stats.

Lemma analyze_without_diff max_diff_lines :
  analyze_file_changes exec list_roots base_branch false max_diff_lines
    cwd_from_root pathspec
  = (map (Invocation wd) (collect_cmds base_branch pathspec),
     Return (JObj (result_of base_branch names stats))).
Proof.
  rewrite analyze_unfold, resolve_eta, (collects_wd C), bind_return.
  rewrite (collect_ok C), bind_return. reflexivity.
Qed.

Lemma analyze_with_diff max_diff_lines raw :
  prints exec wd (diff_cmd base_branch pathspec) raw ->
  analyze_file_changes exec list_roots base_branch true max_diff_lines
    cwd_from_root pathspec
  = (map (Invocation wd)
         (collect_cmds base_branch pathspec
            ++ [diff_cmd base_branch pathspec]),
     Return (JObj
       (result_of base_branch names stats
          ++ [(key "diff",
               JStr (join [LF]
                 (fst (truncate_diff (splitlines raw) max_diff_lines))));
              (key "truncated",
               JBool
                 (snd (truncate_diff (splitlines raw)
                         max_diff_lines)))]))).
Proof.
  intros [err E].
  rewrite analyze_unfold, resolve_eta, (collects_wd C), bind_return.
  rewrite (collect_ok C), bind_return.
  unfold fetch_diff. cbn [fst snd].
  rewrite (run_git_exited exec wd
             ([lit "diff"; base_branch ++ lit "...HEAD"]
                ++ (if truthy pathspec then [lit "--"; pathspec]
                    else [])) _ E).
  simpl stdout.
  destruct (truncate_diff (splitlines raw) max_diff_lines) as [ls tr].
  reflexivity.
Qed.
End Success.

(** A count that is not read ends the call: the [ValueError] of [int] is
    named by neither [except] clause. *)
Lemma analyze_unreadable {U : UnicodeDecimal} exec list_roots base_branch
    include_diff max_diff_lines cwd_from_root pathspec wd names stats :
  commands_succeed exec list_roots cwd_from_root base_branch pathspec
                   wd names stats ->
  ~ readable (strip stats) ->
  analyze_file_changes exec list_roots base_branch include_diff
    max_diff_lines cwd_from_root pathspec
  = (map (Invocation wd) (collect_cmds base_branch pathspec),
     Raise ValueError).
Proof.
  intros C NR.
  rewrite analyze_unfold, resolve_eta, (succeed_wd C), bind_return.
  rewrite (collect_unreadable C NR), bind_raise. reflexivity.
Qed.

(** ** Python strings: lines *)

Lemma splitlines_one_line l :
  one_line l -> l <> [] -> splitlines l = [l].
Proof.
  induction l as [|c l IH]; intros F N; [congruence|].
  inversion F as [|? ? Hc Hl]; subst. simpl. rewrite Hc.
  destruct l as [|c' l']; [reflexivity|].
  rewrite IH; [reflexivity|assumption|discriminate].
Qed.

Lemma splitlines_line_LF l s :
  one_line l -> splitlines (l ++ LF :: s) = l :: splitlines s.
Proof.
  induction l as [|c l IH]; intros F.
  - simpl. now destruct s.
  - inversion F as [|? ? Hc Hl]; subst.
    change ((c :: l) ++ LF :: s) with (c :: (l ++ LF :: s)).
    cbn [splitlines]. rewrite Hc, IH by assumption. reflexivity.
Qed.

Lemma splitlines_lines s : Forall one_line (splitlines s).
Proof.
  remember (length s) as n eqn:E.
  revert s E. induction n as [n IH] using lt_wf_ind. intros s ->.
  destruct s as [|c s]; [constructor|]. simpl.
  destruct (is_linebreak c) eqn:B.
  - constructor; [constructor|].
    destruct s as [|c' s']; [constructor|].
    destruct ((c =? CR) && (c' =? LF))%N;
      (eapply IH; [|reflexivity]; simpl; lia).
  - assert (H : Forall one_line (splitlines s))
      by (eapply IH; [|reflexivity]; simpl; lia).
    destruct (splitlines s) as [|l ls]; [repeat constructor; assumption|].
    inversion H; subst. constructor; [|assumption].
    constructor; assumption.
Qed.

Lemma join_cons sep x xs :
  xs <> [] -> join sep (x :: xs) = x ++ sep ++ join sep xs.
Proof. destruct xs; [congruence|reflexivity]. Qed.

(** Lines that hold no boundary and do not end on an empty line are
    read back from their join. *)
Lemma splitlines_join ls :
  Forall one_line ls -> last ls [LF] <> [] ->
  splitlines (join [LF] ls) = ls.
Proof.
  induction ls as [|l ls IH]; intros F N; [reflexivity|].
  inversion F as [|? ? Hl Hls]; subst.
  destruct ls as [|l' ls'].
  - simpl in *. now apply splitlines_one_line.
  - rewrite join_cons by discriminate.
    change (l ++ [LF] ++ join [LF] (l' :: ls'))
      with (l ++ LF :: join [LF] (l' :: ls')).
    rewrite splitlines_line_LF by assumption.
    f_equal. apply IH; assumption.
Qed.

(** The join of lines followed by an entry that opens with a line break:
    the break shows as an empty line. *)
Lemma splitlines_join_marker ls m :
  Forall one_line ls -> one_line m -> m <> [] ->
  splitlines (join [LF] (ls ++ [LF :: m])) = ls ++ [[]; m].
Proof.
  intros F Hm N. induction ls as [|l ls IH].
  - simpl. destruct m as [|c m']; [congruence|].
    now rewrite <- (splitlines_one_line Hm N).
  - inversion F as [|? ? Hl Hls]; subst.
    change ((l :: ls) ++ [LF :: m]) with (l :: (ls ++ [LF :: m])).
    rewrite join_cons by (destruct ls; discriminate).
    change (l ++ [LF] ++ join [LF] (ls ++ [LF :: m]))
      with (l ++ LF :: join [LF] (ls ++ [LF :: m])).
    rewrite splitlines_line_LF by assumption.
    simpl. f_equal. now apply IH.
Qed.

(** ** Python strings: the text of an integer *)

Lemma lit_app a b : lit (a ++ b)%string = lit a ++ lit b.
Proof.
  unfold lit. induction a as [|c a IH]; simpl; [reflexivity|].
  now rewrite IH.
Qed.

Lemma string_of_uint_chars d :
  Forall sign_or_digit (lit (NilEmpty.string_of_uint d)).
Proof.
  induction d; simpl; try constructor; try assumption;
    right; vm_compute; split; discriminate.
Qed.

Lemma format_int_chars n : Forall sign_or_digit (format_int n).
Proof.
  unfold format_int. destruct (Z.to_int n) as [d|d]; simpl.
  - apply string_of_uint_chars.
  - constructor; [now left|]. apply string_of_uint_chars.
Qed.

Lemma sign_or_digit_no_break c : sign_or_digit c -> is_linebreak c = false.
Proof.
  intros [->|[L H]]; [reflexivity|]. unfold is_linebreak.
  repeat match goal with
  | |- context [(?a <=? ?b)%N] => destruct (N.leb_spec a b); try lia
  | |- context [(?a =? ?b)%N] => destruct (N.eqb_spec a b); try lia
  end; reflexivity.
Qed.

Lemma marker_text max_diff_lines :
  exists m, truncation_marker max_diff_lines = LF :: m
            /\ one_line m /\ m <> [].
Proof.
  exists (lit "--- Diff truncated at " ++ format_int max_diff_lines
            ++ lit " lines ---").
  split; [reflexivity|]. split; [|discriminate].
  unfold one_line. rewrite !Forall_app. repeat split.
  - repeat constructor.
  - eapply Forall_impl; [|apply format_int_chars].
    intros c. apply sign_or_digit_no_break.
  - repeat constructor.
Qed.

(** ** A concrete run *)

Lemma repository_succeeds names stats raw :
  commands_succeed (repository names stats raw) (Return []) false main []
                   None names stats.
Proof.
  constructor.
  - reflexivity.
  - eexists. eexists. reflexivity.
  - eexists. eexists. reflexivity.
  - eexists. reflexivity.
  - eexists. reflexivity.
Qed.

Lemma repository_collects (U : UnicodeDecimal) names stats raw :
  readable (strip stats) ->
  collects (repository names stats raw) (Return []) false main []
           None names stats.
Proof. intros R. split; [apply repository_succeeds|exact R]. Qed.

Lemma readable_three_clauses :
  readable (U := ascii_table) (strip stats_three_clauses).
Proof. repeat split. Qed.

Lemma readable_no_insertion :
  readable (U := ascii_table) (strip stats_no_insertion).
Proof. repeat split. Qed.

Lemma repository_prints names stats raw :
  prints (repository names stats raw) None (diff_cmd main []) raw.
Proof. eexists. reflexivity. Qed.

(* ===================================================================== *)
(** * The cut of the diff *)
(* ===================================================================== *)

Lemma Forall_prefix {A} (P : A -> Prop) n (xs : list A) :
  Forall P xs -> Forall P (firstn n xs).
Proof.
  intros F. rewrite <- (firstn_skipn n xs) in F.
  now apply Forall_app in F.
Qed.

Lemma slice_to_nonneg {A} (xs : list A) n :
  (0 <= n)%Z -> slice_to xs n = firstn (Z.to_nat n) xs.
Proof.
  intros H. unfold slice_to.
  destruct (Z.ltb_spec n 0); [lia|reflexivity].
Qed.




(** C2 (amended).  For every call with [include_diff] true whose commands
    succeed and whose statistics are read, if the raw diff has at most
    [max_diff_lines] lines, the returned diff is all the raw lines, unchanged and in order, joined by
    "\n", and [truncated] is false.  It is the raw text itself whenever the
    raw text is such a join: lines without boundaries inside, separated by
    "\n" alone, the last one neither empty nor followed by a terminator. *)
Theorem diff_kept_below_cap :
  forall (U : UnicodeDecimal) (exec : executor) (list_roots : host)
         (base_branch : str) (max_diff_lines : Z) (cwd_from_root : bool)
         (pathspec : str) (wd : option str) (names stats raw : str),
    collects exec list_roots cwd_from_root base_branch pathspec
             wd names stats ->
    prints exec wd (diff_cmd base_branch pathspec) raw ->
    (Z.of_nat (length (splitlines raw)) <= max_diff_lines)%Z ->
    exists t doc,
      analyze_file_changes exec list_roots base_branch true max_diff_lines
        cwd_from_root pathspec = (t, Return doc)
      /\ is_error doc = false
      /\ diff_of doc = Some (join [LF] (splitlines raw))
      /\ truncated_of doc = Some false
      /\ (forall ls, Forall one_line ls -> last ls [LF] <> [] ->
                     raw = join [LF] ls -> diff_of doc = Some raw).
Proof.
  intros U exec list_roots base_branch max_diff_lines cwd_from_root
         pathspec wd names stats raw C P Le.
  rewrite (analyze_with_diff C max_diff_lines P).
  assert (T : truncate_diff (splitlines raw) max_diff_lines
              = (splitlines raw, false)).
  { unfold truncate_diff.
    destruct (Z.gtb_spec (Z.of_nat (length (splitlines raw)))
                max_diff_lines); [lia|reflexivity]. }
  rewrite T. do 2 eexists. split; [reflexivity|].
  split; [reflexivity|]. split; [reflexivity|]. split; [reflexivity|].
  intros ls F N ->. rewrite splitlines_join by assumption. reflexivity.
Qed.

Lemma diff_kept_below_cap_witness :
  exists t doc,
    analyze_file_changes (U := ascii_table)
      (repository [] [] (text ["a"; "b"; "c"]%string)) (Return []) main
      true 500 false [] = (t, Return doc)
    /\ is_error doc = false
    /\ diff_of doc = Some (join [LF] [lit "a"; lit "b"; lit "c"])
    /\ truncated_of doc = Some false
    /\ (forall ls, Forall one_line ls -> last ls [LF] <> [] ->
                   text ["a"; "b"; "c"]%string = join [LF] ls ->
                   diff_of doc = Some (text ["a"; "b"; "c"]%string)).
Proof.
  refine (@diff_kept_below_cap ascii_table
            (repository [] [] (text ["a"; "b"; "c"]%string)) (Return [])
            main 500 false [] None [] [] (text ["a"; "b"; "c"]%string)
            (repository_collects [] [] (text ["a"; "b"; "c"]%string)
              readable_empty)
            (repository_prints [] [] (text ["a"; "b"; "c"]%string)) _).
  vm_compute. discriminate.
Defined.

(** A raw text without a terminator at its end does come back as it
    is. *)
Example diff_round_trip_without_terminator :
  returned (analyze_file_changes (U := ascii_table)
              (repository [] [] (join [LF] [lit "a"; lit "b"]))
              (Return []) main true 500 false [])
  = Some (JObj (result_of (U := ascii_table) main [] []
                  ++ [(key "diff", JStr (join [LF] [lit "a"; lit "b"]));
                      (key "truncated", JBool false)])).
Proof. reflexivity. Qed.

(** C2 as worded fails.  Git ends every line of a diff with "\n"; the
    one-line raw text "a\n" is below the cap of 500 and comes back as "a",
    without its terminator. *)
Lemma diff_round_trip_fails :
  exists doc,
    returned (analyze_file_changes (U := ascii_table)
                (repository [] [] (text ["a"]%string)) (Return [])
                main true 500 false []) = Some doc
    /\ diff_of doc = Some (lit "a")
    /\ ~ round_trip_as_specified (text ["a"]%string) 500 doc.
Proof.
  eexists. split; [vm_compute; reflexivity|].
  split; [vm_compute; reflexivity|].
  intros H. destruct H as [D _]; [vm_compute; discriminate|].
  vm_compute in D. discriminate.
Qed.

(* ===================================================================== *)
(** * The listing of changed files *)
(* ===================================================================== *)

Section AnySuccess.
Context {U : UnicodeDecimal}.

(** A run whose commands succeed and whose statistics are read returns
    the fields of [result], followed by those of the diff when it is asked
    for. *)
Lemma analyze_succeeds exec list_roots base_branch include_diff
    max_diff_lines cwd_from_root pathspec wd names stats :
  collects exec list_roots cwd_from_root base_branch pathspec
           wd names stats ->
  (include_diff = true ->
   exists raw, prints exec wd (diff_cmd base_branch pathspec) raw) ->
  exists t more,
    analyze_file_changes exec list_roots base_branch include_diff
      max_diff_lines cwd_from_root pathspec
    = (t, Return (JObj (result_of base_branch names stats ++ more))).
Proof.
  intros C D. destruct include_diff.
  - destruct (D eq_refl) as [raw P].
    rewrite (analyze_with_diff C max_diff_lines P).
    now do 2 eexists.
  - rewrite (analyze_without_diff C). eexists. exists [].
    now rewrite app_nil_r.
Qed.
End AnySuccess.

Lemma changed_files_of_map lines :
  changed_files_of lines = map record_of (filter nonblank lines).
Proof.
  induction lines as [|line rest IH]; [reflexivity|].
  simpl. unfold nonblank at 1.
  destruct (truthy (strip line)); simpl; now rewrite IH.
Qed.

Lemma split_no_tab f : no_tab f -> split TAB f = [f].
Proof.
  induction f as [|c f IH]; intros F; [reflexivity|].
  inversion F as [|? ? Hc Hf]; subst. simpl.
  destruct (N.eqb_spec c TAB); [contradiction|].
  now rewrite IH.
Qed.

Lemma split_field_TAB f s :
  no_tab f -> split TAB (f ++ TAB :: s) = f :: split TAB s.
Proof.
  induction f as [|c f IH]; intros F; [reflexivity|].
  inversion F as [|? ? Hc Hf]; subst.
  change ((c :: f) ++ TAB :: s) with (c :: (f ++ TAB :: s)).
  cbn [split]. destruct (N.eqb_spec c TAB); [contradiction|].
  now rewrite IH.
Qed.

(** The columns of a line are read back from it. *)
Lemma split_join fields :
  fields <> [] -> Forall no_tab fields ->
  split TAB (join [TAB] fields) = fields.
Proof.
  induction fields as [|f fs IH]; intros N F; [congruence|].
  inversion F as [|? ? Hf Hfs]; subst.
  destruct fs as [|f' fs'].
  - simpl. now apply split_no_tab.
  - rewrite join_cons by discriminate.
    change (f ++ [TAB] ++ join [TAB] (f' :: fs'))
      with (f ++ TAB :: join [TAB] (f' :: fs')).
    rewrite split_field_TAB by assumption.
    f_equal. apply IH; [discriminate|assumption].
Qed.

(** ** Blank lines and the lines of a listing *)

Lemma lstrip_truthy l : truthy (lstrip l) = has_ink l.
Proof.
  induction l as [|c l IH]; [reflexivity|].
  simpl. destruct (isspace c); [exact IH|reflexivity].
Qed.

Lemma lstrip_ink l : has_ink (lstrip l) = has_ink l.
Proof.
  induction l as [|c l IH]; [reflexivity|].
  simpl. destruct (isspace c) eqn:E; [exact IH|].
  simpl. now rewrite E.
Qed.

Lemma truthy_rev l : truthy (rev l) = truthy l.
Proof.
  destruct l as [|c l]; [reflexivity|]. simpl.
  now destruct (rev l).
Qed.

Lemma has_ink_rev l : has_ink (rev l) = has_ink l.
Proof.
  unfold has_ink. induction l as [|c l IH]; [reflexivity|].
  simpl. rewrite existsb_app, IH. simpl.
  rewrite orb_false_r. apply orb_comm.
Qed.

(** A line is kept by the loop when some character of it is not
    whitespace. *)
Lemma nonblank_ink l : nonblank l = has_ink l.
Proof.
  unfold nonblank, strip, rstrip.
  now rewrite truthy_rev, lstrip_truthy, has_ink_rev, lstrip_ink.
Qed.

Lemma entry_line_one_line columns :
  Forall column columns -> one_line (entry_line columns).
Proof.
  unfold entry_line, one_line.
  induction 1 as [|f fs [_ Hf] _ IH]; [constructor|].
  destruct fs as [|f' fs']; [simpl; exact Hf|].
  rewrite join_cons by discriminate.
  rewrite !Forall_app. split; [exact Hf|]. split; [|exact IH].
  now repeat constructor.
Qed.

(** The lines of a printed listing are the lines of its entries. *)
Lemma splitlines_printed entries :
  Forall entry entries ->
  splitlines (printed entries) = map entry_line entries.
Proof.
  induction 1 as [|columns rest [_ Hc] _ IH]; [reflexivity|].
  unfold printed. cbn [flat_map map].
  rewrite <- app_assoc. change ([LF] ++ ?x) with (LF :: x).
  rewrite splitlines_line_LF by now apply entry_line_one_line.
  f_equal. exact IH.
Qed.

Lemma changed_files_of_entries entries :
  Forall entry entries ->
  changed_files_of (map entry_line entries)
  = map entry_record (filter inked entries).
Proof.
  induction 1 as [|columns rest [N Hc] _ IH]; [reflexivity|].
  cbn [map changed_files_of filter].
  change (truthy (strip (entry_line columns)))
    with (nonblank (entry_line columns)).
  rewrite nonblank_ink. fold (inked columns).
  destruct (inked columns); [|exact IH].
  cbn [map]. rewrite <- IH. f_equal.
  unfold entry_record, entry_line. rewrite split_join; [reflexivity|exact N|].
  eapply Forall_impl; [|exact Hc]. now intros f [T _].
Qed.




(** Why the columns may hold no line boundary: [splitlines] also cuts at
    U+2028 and its like, so the one entry git prints for a file whose name
    holds such a character gives two records. *)
Example separator_in_a_name_gives_two_records :
  names_with_separator
  = printed [[lit "A"; lit "a" ++ [8232%N] ++ lit "b.txt"]]
  /\ exists doc,
       returned (analyze_file_changes (U := ascii_table)
                   (repository names_with_separator [] []) (Return [])
                   main false 500 false []) = Some doc
       /\ field "changed_files" doc
          = Some (JArr [JObj [(key "path", jstr "a");
                              (key "status", jstr "A")];
                        JObj [(key "path", jstr "b.txt");
                              (key "status", jstr "b.txt")]]).
Proof.
  split; [reflexivity|].
  eexists. split; vm_compute; reflexivity.
Qed.

(* ===================================================================== *)
(** * The two template tools *)
(* ===================================================================== *)

(** C5 (the code departs from the claim).  Whatever the template directory
    holds, [get_pr_templates] reads nothing and returns the document of
    the stub, an error, which lists no template. *)
Theorem get_pr_templates_is_a_stub :
  forall dir : directory,
    get_pr_templates = ([], Return templates_stub_doc)
    /\ is_error templates_stub_doc = true
    /\ ~ templates_document dir templates_stub_doc.
Proof.
  intros dir. split; [reflexivity|]. split; [reflexivity|].
  intros (descriptors & E & _). discriminate E.
Qed.

(** C6 (the code departs from the claim).  For every summary and every
    change type [suggest_template] returns the document of the stub, an
    error with no template, content or rationale. *)
Theorem suggest_template_is_a_stub :
  forall changes_summary change_type : str,
    suggest_template changes_summary change_type
    = ([], Return suggestion_stub_doc)
    /\ is_error suggestion_stub_doc = true
    /\ ~ suggestion_result suggestion_stub_doc.
Proof.
  intros cs ct. split; [reflexivity|]. split; [reflexivity|].
  intros (t & c & r & E). discriminate E.
Qed.

(* ===================================================================== *)
(** * Git missing *)
(* ===================================================================== *)

Section Missing.
Context {U : UnicodeDecimal}.

Lemma collect_not_started exec base_branch pathspec wd e :
  exec (Invocation wd version_cmd) = NotStarted e ->
  collect exec base_branch pathspec wd
  = ([Invocation wd version_cmd], Raise e).
Proof.
  intros E. unfold collect.
  rewrite run_git_raises with (e := e); [reflexivity|].
  unfold run_git, subprocess_run. simpl.
  change (lit "git" :: [lit "--version"]) with version_cmd.
  now rewrite E.
Qed.
End Missing.

(** C7 (amended).  For every call that resolves its working directory
    (it does not ask the host, or the host answers with roots, or the
    host's failure is one of those the resolver takes for an absent
    context) and finds that git cannot be started, the operation returns
    exactly the document [{error: "git_not_found", hint: "Git is not
    installed or not in PATH."}], after the one attempt to start git, and
    raises nothing. *)
Theorem missing_git_is_reported :
  forall (U : UnicodeDecimal) (exec : executor) (list_roots : host)
         (base_branch : str) (include_diff : bool) (max_diff_lines : Z)
         (cwd_from_root : bool) (pathspec : str) (wd : option str),
    snd (resolve_working_dir list_roots cwd_from_root) = Return wd ->
    git_not_invocable exec ->
    analyze_file_changes exec list_roots base_branch include_diff
      max_diff_lines cwd_from_root pathspec
    = ([Invocation wd version_cmd],
       Return (JObj [(key "error", jstr "git_not_found");
                     (key "hint",
                      jstr "Git is not installed or not in PATH.")])).
Proof.
  intros U exec list_roots base_branch include_diff max_diff_lines
         cwd_from_root pathspec wd Hwd G.
  rewrite analyze_unfold, resolve_eta, Hwd, bind_return.
  rewrite (@collect_not_started U exec base_branch pathspec wd _ (G _)).
  reflexivity.
Qed.

Lemma missing_git_is_reported_witness :
  analyze_file_changes (U := ascii_table) no_git (Return [])
    main true 500 true []
  = ([Invocation None version_cmd],
     Return (JObj [(key "error", jstr "git_not_found");
                   (key "hint",
                    jstr "Git is not installed or not in PATH.")])).
Proof.
  apply (@missing_git_is_reported ascii_table no_git (Return []) main
           true 500 true [] None).
  - reflexivity.
  - intros i. reflexivity.
Defined.

(** C7 as worded fails.  With [cwd_from_root] true and a host whose
    request for roots fails with an exception the resolver does not take,
    git being missing or not, the exception leaves the operation: no
    document is returned. *)
Lemma missing_git_not_always_reported :
  analyze_file_changes (U := ascii_table) no_git host_without_roots
    main true 500 true []
  = ([], Raise (OtherException "McpError"))
  /\ ~ not_found_as_specified (U := ascii_table) no_git host_without_roots
        main true 500 true [].
Proof.
  split; [reflexivity|].
  intros H. assert (G : git_not_invocable no_git) by (intros i; reflexivity).
  specialize (H G). discriminate H.
Qed.

(* ===================================================================== *)
(** * A command that fails *)
(* ===================================================================== *)

Section Failure.
Context {U : UnicodeDecimal}.
Variable exec : executor.
Variable list_roots : host.

Lemma rof_silent {A} (m : M A) :
  fst m = [] -> raises_on_failure exec m.
Proof. intros E i rc out err I. rewrite E in I. destruct I. Qed.

Lemma rof_bind {A B} (m : M A) (k : A -> M B) :
  raises_on_failure exec m ->
  (forall a, raises_on_failure exec (k a)) ->
  raises_on_failure exec (bind m k).
Proof.
  intros Hm Hk i rc out err. destruct m as [t [a|e]]; unfold bind; simpl.
  - intros I E N. apply in_app_or in I. destruct I as [I|I].
    + now specialize (Hm i rc out err I E N).
    + exact (Hk a i rc out err I E N).
  - intros I E N. specialize (Hm i rc out err I E N).
    simpl in Hm. now injection Hm as ->.
Qed.

Lemma rof_run_git wd args : raises_on_failure exec (run_git exec wd args).
Proof.
  intros i rc out err [<-|[]] E N. simpl. rewrite E.
  destruct (Z.eqb_spec rc 0); [contradiction|reflexivity].
Qed.

Lemma rof_count_of ps s : raises_on_failure exec (count_of ps s).
Proof.
  apply rof_silent. unfold count_of.
  destruct (search ps s); [|reflexivity].
  destruct (int _); reflexivity.
Qed.

Lemma rof_collect base_branch pathspec wd :
  raises_on_failure exec (collect exec base_branch pathspec wd).
Proof.
  unfold collect.
  repeat (apply rof_bind;
          [first [apply rof_run_git | apply rof_count_of]|intro]).
  now apply rof_silent.
Qed.

Lemma rof_fetch_diff base_branch max_diff_lines pathspec wd result :
  raises_on_failure exec
    (fetch_diff exec base_branch max_diff_lines pathspec wd result).
Proof.
  unfold fetch_diff. apply rof_bind; [apply rof_run_git|intros p].
  apply rof_silent. now destruct truncate_diff.
Qed.

Lemma try_except_boundary_trace (m : M json) :
  fst (try_except m boundary) = fst m.
Proof.
  destruct m as [t [a|e]]; unfold try_except; simpl; [reflexivity|].
  destruct e; simpl; try reflexivity; apply app_nil_r.
Qed.
End Failure.

Lemma strip_or_empty err :
  strip (if truthy err then err else []) = strip err.
Proof. now destruct err. Qed.

(** C8 (amended).  For every call in which some git command the operation
    runs exits with a status other than 0 and with output that decodes as
    text, the operation returns the document with error "git_failed", the
    failing command under [cmd] and its standard error, trimmed, under
    [stderr]; nothing is raised. *)
Theorem failed_command_is_reported :
  forall (U : UnicodeDecimal) (exec : executor) (list_roots : host)
         (base_branch : str) (include_diff : bool) (max_diff_lines : Z)
         (cwd_from_root : bool) (pathspec : str)
         (i : invocation) (rc : Z) (out err : str),
    In i (fst (analyze_file_changes exec list_roots base_branch
                 include_diff max_diff_lines cwd_from_root pathspec)) ->
    exec i = Exited rc out err -> rc <> 0%Z ->
    snd (analyze_file_changes exec list_roots base_branch include_diff
           max_diff_lines cwd_from_root pathspec)
    = Return (JObj [(key "error", jstr "git_failed");
                    (key "cmd", JArr (map JStr (argv i)));
                    (key "stderr", JStr (strip err))]).
Proof.
  intros U exec list_roots base_branch include_diff max_diff_lines
         cwd_from_root pathspec i rc out err.
  rewrite analyze_unfold, try_except_boundary_trace.
  intros I E N.
  assert (R : raises_on_failure exec
            (wd <- resolve_working_dir list_roots cwd_from_root ;;
             result <- collect exec base_branch pathspec wd ;;
             if include_diff
             then fetch_diff exec base_branch max_diff_lines pathspec
                    wd result
             else ret (JObj result))).
  { apply rof_bind; [apply rof_silent, resolve_trace|intros wd].
    apply rof_bind; [apply rof_collect|intros result].
    destruct include_diff; [apply rof_fetch_diff|now apply rof_silent]. }
  specialize (R i rc out err I E N).
  unfold try_except. rewrite R. simpl.
  unfold git_failed_doc. now rewrite strip_or_empty.
Qed.

Lemma failed_command_is_reported_witness :
  snd (analyze_file_changes (U := ascii_table)
         (repository [] [] []) (Return []) (lit "dev") true 500 false [])
  = Return (JObj [(key "error", jstr "git_failed");
                  (key "cmd",
                   JArr (map JStr (name_status_cmd (lit "dev") [])));
                  (key "stderr",
                   JStr (lit "usage: git diff [<options>]"))]).
Proof.
  apply (@failed_command_is_reported ascii_table (repository [] [] [])
           (Return []) (lit "dev") true 500 false []
           (Invocation None (name_status_cmd (lit "dev") []))
           129 [] (lit "usage: git diff [<options>]" ++ [LF])).
  - vm_compute. tauto.
  - reflexivity.
  - discriminate.
Defined.

(** C8 as worded fails.  A command that exits with a status other than 0
    and whose output does not decode makes [subprocess.run] raise
    [UnicodeDecodeError] before it looks at the status; neither [except]
    clause names it, and it leaves the operation: no document is
    returned. *)
Lemma failed_command_not_always_reported :
  analyze_file_changes (U := ascii_table) garbled_complaint (Return [])
    main true 500 false []
  = ([Invocation None version_cmd; Invocation None work_tree_cmd;
      Invocation None (name_status_cmd main [])],
     Raise ValueError)
  /\ exit_status
       (garbled_complaint (Invocation None (name_status_cmd main [])))
     = Some 128%Z
  /\ ~ failure_as_specified (U := ascii_table) garbled_complaint
        (Return []) main true 500 false [].
Proof.
  split; [vm_compute; reflexivity|]. split; [reflexivity|].
  intros H.
  destruct (H (Invocation None (name_status_cmd main [])) 128%Z)
    as (doc & R & _).
  - vm_compute. tauto.
  - reflexivity.
  - discriminate.
  - vm_compute in R. discriminate R.
Qed.

(* ===================================================================== *)
(** * The working directory *)
(* ===================================================================== *)

Section WorkingDir.
Context {U : UnicodeDecimal}.
Variable exec : executor.
Variable list_roots : host.

Lemma runs_in_silent wd {A} (m : M A) : fst m = [] -> runs_in wd m.
Proof. unfold runs_in. intros ->. constructor. Qed.

Lemma runs_in_bind wd {A B} (m : M A) (k : A -> M B) :
  runs_in wd m -> (forall a, runs_in wd (k a)) -> runs_in wd (bind m k).
Proof.
  unfold runs_in. intros Hm Hk.
  destruct m as [t [a|e]]; unfold bind; simpl in *; [|assumption].
  apply Forall_app. split; [assumption|apply Hk].
Qed.

Lemma runs_in_run_git wd args : runs_in wd (run_git exec wd args).
Proof. repeat constructor. Qed.

Lemma count_of_silent ps s : fst (count_of ps s) = [].
Proof.
  unfold count_of. destruct (search ps s); [|reflexivity].
  destruct (int _); reflexivity.
Qed.

Lemma hd_bind {A B} (m : M A) (k : A -> M B) i :
  hd_error (fst m) = Some i -> hd_error (fst (bind m k)) = Some i.
Proof.
  destruct m as [[|j t] [a|e]]; unfold bind; simpl;
    try discriminate; auto.
Qed.

(** Past the resolution, every command runs in the directory it gave;
    the first is the probe of the version. *)
Lemma analyze_runs_in base_branch include_diff max_diff_lines
    cwd_from_root pathspec wd :
  snd (resolve_working_dir list_roots cwd_from_root) = Return wd ->
  runs_in wd (analyze_file_changes exec list_roots base_branch
                include_diff max_diff_lines cwd_from_root pathspec)
  /\ hd_error (fst (analyze_file_changes exec list_roots base_branch
                      include_diff max_diff_lines cwd_from_root
                      pathspec))
     = Some (Invocation wd version_cmd).
Proof.
  intros Hwd. unfold runs_in.
  rewrite analyze_unfold, try_except_boundary_trace.
  rewrite resolve_eta, Hwd, bind_return. simpl app.
  split; [|unfold collect; do 2 apply hd_bind; reflexivity].
  apply runs_in_bind.
  - unfold collect.
    repeat (apply runs_in_bind;
            [first [apply runs_in_run_git
                   |apply runs_in_silent, count_of_silent]|intro]).
    now apply runs_in_silent.
  - intros result. destruct include_diff; [|now apply runs_in_silent].
    unfold fetch_diff. apply runs_in_bind; [apply runs_in_run_git|].
    intros p. apply runs_in_silent. now destruct truncate_diff.
Qed.
End WorkingDir.

(** C9 (amended).  For every call with [cwd_from_root] true: if the host's
    request for roots raises [ValueError] or [AttributeError] (the context
    is not there) or returns no root, the resolver yields no directory and
    the call is, commands and answer, the call made with [cwd_from_root]
    false, every command running in the directory of the process; if the
    host returns roots, every command, from the first, runs in the path of
    the first root. *)
Theorem working_directory_of_the_call :
  forall (U : UnicodeDecimal) (exec : executor) (list_roots : host)
         (base_branch : str) (include_diff : bool) (max_diff_lines : Z)
         (pathspec : str),
    let call cwd_from_root :=
      analyze_file_changes exec list_roots base_branch include_diff
        max_diff_lines cwd_from_root pathspec in
    (list_roots = Raise ValueError \/ list_roots = Raise AttributeError
     \/ list_roots = Return [] ->
     resolve_working_dir list_roots true = ret None
     /\ call true = call false
     /\ runs_in None (call true)
     /\ hd_error (fst (call true)) = Some (Invocation None version_cmd))
    /\ (forall r rs,
          list_roots = Return (r :: rs) ->
          resolve_working_dir list_roots true = ret (uri_path r)
          /\ runs_in (uri_path r) (call true)
          /\ hd_error (fst (call true))
             = Some (Invocation (uri_path r) version_cmd)).
Proof.
  intros U exec list_roots base_branch include_diff max_diff_lines
         pathspec call.
  split.
  - intros H.
    assert (E : resolve_working_dir list_roots true = ret None)
      by (destruct H as [->|[->| ->]]; reflexivity).
    split; [assumption|]. split.
    + unfold call, analyze_file_changes. now rewrite E.
    + apply analyze_runs_in. now rewrite E.
  - intros r rs ->. split; [reflexivity|].
    apply analyze_runs_in. reflexivity.
Qed.

Lemma working_directory_of_the_call_witness :
  (resolve_working_dir (Raise ValueError) true = ret None
   /\ analyze_file_changes (U := ascii_table) (repository [] [] [])
        (Raise ValueError) main false 500 true []
      = analyze_file_changes (U := ascii_table) (repository [] [] [])
          (Raise ValueError) main false 500 false []
   /\ runs_in None
        (analyze_file_changes (U := ascii_table) (repository [] [] [])
           (Raise ValueError) main false 500 true [])
   /\ hd_error
        (fst (analyze_file_changes (U := ascii_table)
                (repository [] [] []) (Raise ValueError) main false 500
                true []))
      = Some (Invocation None version_cmd))
  /\
  (resolve_working_dir (Return [Root (Some (lit "/work"))]) true
   = ret (Some (lit "/work"))
   /\ runs_in (Some (lit "/work"))
        (analyze_file_changes (U := ascii_table) (repository [] [] [])
           (Return [Root (Some (lit "/work"))]) main false 500 true [])
   /\ hd_error
        (fst (analyze_file_changes (U := ascii_table)
                (repository [] [] [])
                (Return [Root (Some (lit "/work"))]) main false 500
                true []))
      = Some (Invocation (Some (lit "/work")) version_cmd)).
Proof.
  split.
  - apply (proj1 (@working_directory_of_the_call ascii_table
                    (repository [] [] []) (Raise ValueError) main false
                    500 [])).
    left. reflexivity.
  - apply (proj2 (@working_directory_of_the_call ascii_table
                    (repository [] [] [])
                    (Return [Root (Some (lit "/work"))]) main false
                    500 []) (Root (Some (lit "/work"))) []).
    reflexivity.
Defined.

(** C9 as worded fails.  A host that throws anything but [ValueError] or
    [AttributeError] is not taken for an absent context: the exception
    leaves the operation, where the same call without [cwd_from_root]
    returns its document. *)
Lemma fallback_not_for_every_exception :
  analyze_file_changes (U := ascii_table) (repository [] [] [])
    host_without_roots main false 500 true []
  = ([], Raise (OtherException "McpError"))
  /\ is_error_free
       (analyze_file_changes (U := ascii_table) (repository [] [] [])
          host_without_roots main false 500 false []) = true
  /\ ~ fallback_as_specified (U := ascii_table) (repository [] [] [])
        host_without_roots main false 500 [].
Proof.
  split; [reflexivity|]. split; [vm_compute; reflexivity|].
  intros H.
  assert (T : host_without_roots = Return []
              \/ exists e, host_without_roots = Raise e)
    by (right; eexists; reflexivity).
  specialize (H T). vm_compute in H. discriminate H.
Qed.

(* ===================================================================== *)
(** * Without the diff *)
(* ===================================================================== *)

Section Shape.
Context {U : UnicodeDecimal}.
Variable exec : executor.

Lemma trace_run_git {A} wd args (k : CompletedProcess -> M A) :
  fst (bind (run_git exec wd args) k)
  = Invocation wd (lit "git" :: args)
      :: match snd (run_git exec wd args) with
         | Return p => fst (k p)
         | Raise _ => []
         end.
Proof.
  unfold bind. destruct (snd (run_git exec wd args)); reflexivity.
Qed.

Lemma silent_bind {A B} (m : M A) (k : A -> M B) :
  fst m = [] -> (forall a, fst (k a) = []) -> fst (bind m k) = [].
Proof.
  destruct m as [t [a|e]]; unfold bind; simpl; intros -> H;
    [apply H|reflexivity].
Qed.

(** The commands of steps 2 to 5 are run in order, up to the first
    that fails. *)
Lemma collect_trace base_branch pathspec wd :
  exists n,
    fst (collect exec base_branch pathspec wd)
    = map (Invocation wd) (firstn n (collect_cmds base_branch pathspec)).
Proof.
  unfold collect. rewrite trace_run_git.
  destruct (snd (run_git exec wd _)); [|now exists 1%nat].
  rewrite trace_run_git.
  destruct (snd (run_git exec wd _)); [|now exists 2%nat].
  rewrite trace_run_git.
  destruct (snd (run_git exec wd _)); [|now exists 3%nat].
  rewrite trace_run_git.
  destruct (snd (run_git exec wd _)); [|now exists 4%nat].
  rewrite silent_bind; [now exists 4%nat|apply count_of_silent|].
  intros f. apply silent_bind; [apply count_of_silent|].
  intros i. apply silent_bind; [apply count_of_silent|]. reflexivity.
Qed.

Lemma returns_only_bind {A B} (P : B -> Prop) (m : M A) (k : A -> M B) :
  (forall a, returns_only P (k a)) -> returns_only P (bind m k).
Proof.
  intros H b. destruct m as [t [a|e]]; unfold bind; simpl.
  - apply H.
  - discriminate.
Qed.

(** What steps 2 to 5 return has the three fields of [result]. *)
Lemma collect_shape base_branch pathspec wd :
  returns_only
    (fun result =>
       exists changed_files summary,
         result = [(key "base_branch", JStr base_branch);
                   (key "changed_files", JArr changed_files);
                   (key "summary", summary)])
    (collect exec base_branch pathspec wd).
Proof.
  unfold collect. repeat (apply returns_only_bind; intro).
  intros r [= <-]. now do 2 eexists.
Qed.
End Shape.

Lemma range_is_no_flag base_branch :
  range_spec base_branch <> lit "--name-status".
Proof.
  unfold range_spec. intros E. apply (f_equal (@rev char)) in E.
  rewrite rev_app_distr in E. vm_compute in E. discriminate E.
Qed.

Lemma diff_cmd_not_collected base_branch pathspec :
  ~ In (diff_cmd base_branch pathspec) (collect_cmds base_branch pathspec).
Proof.
  unfold collect_cmds, diff_cmd, version_cmd, work_tree_cmd,
    name_status_cmd, shortstat_cmd.
  intros [E|[E|[E|[E|[]]]]].
  - destruct (truthy pathspec); discriminate E.
  - injection E as E _. vm_compute in E. discriminate E.
  - injection E as E _. symmetry in E. now apply range_is_no_flag in E.
  - injection E as E _. unfold range_spec in E.
    apply (f_equal (@rev char)) in E.
    rewrite rev_app_distr in E. vm_compute in E. discriminate E.
Qed.

(** C10.  For every call with [include_diff] false: the diff is not
    fetched (the commands run are those of the collection, in order, and
    none is the diff command); a returned document that is not an error
    has exactly the fields [base_branch], [changed_files] and [summary],
    with no [diff] and no [truncated]; and whenever the same call with
    [include_diff] true returns a document that is not an error, that
    document is the one returned here followed by [diff] and
    [truncated]. *)
Theorem without_diff_same_fields :
  forall (U : UnicodeDecimal) (exec : executor) (list_roots : host)
         (base_branch : str) (max_diff_lines : Z) (cwd_from_root : bool)
         (pathspec : str),
    let call include_diff :=
      analyze_file_changes exec list_roots base_branch include_diff
        max_diff_lines cwd_from_root pathspec in
    (exists n, map argv (fst (call false))
               = firstn n (collect_cmds base_branch pathspec))
    /\ (forall i, In i (fst (call false)) ->
                  argv i <> diff_cmd base_branch pathspec)
    /\ (forall doc,
          returned (call false) = Some doc -> is_error doc = false ->
          keys doc = [key "base_branch"; key "changed_files";
                      key "summary"]
          /\ field "diff" doc = None /\ field "truncated" doc = None)
    /\ (forall doc',
          returned (call true) = Some doc' -> is_error doc' = false ->
          exists result diff truncated,
            returned (call false) = Some (JObj result)
            /\ is_error (JObj result) = false
            /\ doc' = JObj (result
                              ++ [(key "diff", JStr diff);
                                  (key "truncated", JBool truncated)])).
Proof.
  intros U exec list_roots base_branch max_diff_lines cwd_from_root
         pathspec call.
  assert (T : exists n, map argv (fst (call false))
                        = firstn n (collect_cmds base_branch pathspec)).
  { unfold call. rewrite analyze_unfold, try_except_boundary_trace.
    rewrite resolve_eta.
    destruct (snd (resolve_working_dir list_roots cwd_from_root))
      as [wd|e]; [|now exists 0%nat].
    rewrite bind_return. simpl app.
    destruct (collect_trace exec base_branch pathspec wd) as [n E].
    exists n.
    destruct (collect exec base_branch pathspec wd) as [t [r|e]];
      unfold bind; simpl in *; rewrite ?app_nil_r, E, map_map;
      simpl; apply map_id. }
  split; [exact T|]. split.
  { destruct T as [n E]. intros i I D.
    apply (@diff_cmd_not_collected base_branch pathspec).
    rewrite <- D.
    apply (in_map argv) in I. rewrite E in I.
    rewrite <- (firstn_skipn n (collect_cmds base_branch pathspec)).
    apply in_or_app. now left. }
  unfold call, returned. rewrite !analyze_unfold, resolve_eta.
  destruct (snd (resolve_working_dir list_roots cwd_from_root))
    as [wd|e].
  2:{ rewrite !bind_raise. unfold try_except. simpl.
      split; intros doc; destruct e; simpl;
        try discriminate; intros [= <-]; discriminate. }
  rewrite !bind_return. simpl app.
  pose proof (@collect_shape U exec base_branch pathspec wd) as S.
  destruct (collect exec base_branch pathspec wd) as [t [result|e]].
  2:{ rewrite !bind_raise. unfold try_except. simpl.
      split; intros doc; destruct e; simpl;
        try discriminate; intros [= <-]; discriminate. }
  destruct (S result eq_refl) as (cf & sm & ->).
  rewrite !bind_return. split.
  - unfold try_except. simpl. intros doc [= <-] _. repeat split.
  - intros doc'. unfold fetch_diff, try_except, bind. simpl.
    destruct (exec _) as [rc out err|rc|e].
    + destruct (rc =? 0)%Z; simpl.
      * destruct (truncate_diff _ _) as [ls tr]. simpl.
        intros [= <-] _. eexists. exists (join [LF] ls), tr.
        repeat split.
      * intros [= <-]. discriminate.
    + simpl. discriminate.
    + destruct e; simpl; try discriminate; intros [= <-]; discriminate.
Qed.

Lemma without_diff_same_fields_witness :
  (exists n,
      map argv
        (fst (analyze_file_changes (U := ascii_table)
                (repository names_with_rename [] (text ["a"]%string))
                (Return []) main false 500 false []))
      = firstn n (collect_cmds main []))
  /\ (forall i,
        In i (fst (analyze_file_changes (U := ascii_table)
                     (repository names_with_rename [] (text ["a"]%string))
                     (Return []) main false 500 false [])) ->
        argv i <> diff_cmd main [])
  /\ (forall doc,
        returned (analyze_file_changes (U := ascii_table)
                    (repository names_with_rename [] (text ["a"]%string))
                    (Return []) main false 500 false []) = Some doc ->
        is_error doc = false ->
        keys doc = [key "base_branch"; key "changed_files"; key "summary"]
        /\ field "diff" doc = None /\ field "truncated" doc = None)
  /\ (forall doc',
        returned (analyze_file_changes (U := ascii_table)
                    (repository names_with_rename [] (text ["a"]%string))
                    (Return []) main true 500 false []) = Some doc' ->
        is_error doc' = false ->
        exists result diff truncated,
          returned (analyze_file_changes (U := ascii_table)
                      (repository names_with_rename []
                         (text ["a"]%string))
                      (Return []) main false 500 false [])
          = Some (JObj result)
          /\ is_error (JObj result) = false
          /\ doc' = JObj (result
                            ++ [(key "diff", JStr diff);
                                (key "truncated", JBool truncated)])).
Proof.
  exact (@without_diff_same_fields ascii_table
           (repository names_with_rename [] (text ["a"]%string))
           (Return []) main 500 false []).
Defined.

(* ===================================================================== *)
(** * The statistics line *)
(* ===================================================================== *)

(** ** Numbers as git prints them *)

Section Numbers.
Context {U : UnicodeDecimal}.

Lemma format_int_of_N n :
  format_int (Z.of_N n) = lit (NilEmpty.string_of_uint (N.to_uint n)).
Proof. destruct n; reflexivity. Qed.

Lemma uint_chars d :
  Forall ascii_digit (lit (NilEmpty.string_of_uint d)).
Proof.
  induction d; simpl; constructor; try assumption;
    vm_compute; split; discriminate.
Qed.

Lemma to_uint_chars_nonempty n :
  lit (NilEmpty.string_of_uint (N.to_uint n)) <> [].
Proof.
  destruct n as [|p]; [discriminate|]. simpl.
  pose proof (Unsigned.to_uint_nonnil p) as H.
  destruct (Pos.to_uint p); [congruence|..]; discriminate.
Qed.

Lemma decimal_of_digit c :
  ascii_digit c -> decimal c = Some (c - 48)%N.
Proof.
  intros [L H]. rewrite decimal_ascii by lia. unfold ascii_decimal.
  destruct (N.leb_spec 48 c); [|lia].
  destruct (N.leb_spec c 57); [|lia]. reflexivity.
Qed.

Lemma digits_value_uint d : forall acc,
  digits_value (Z.of_N acc) (lit (NilEmpty.string_of_uint d))
  = Some (Z.of_N (Unsigned.of_lu (Decimal.rev d)
                  + acc * 10 ^ Unsigned.usize d)).
Proof.
  induction d; intros acc;
    [simpl; f_equal; f_equal; lia|..];
    (match goal with
     | |- context [Decimal.rev (?f d)] =>
         change (Decimal.rev (f d)) with (revapp d (f Nil));
         rewrite (Unsigned.of_lu_revapp d (f Nil))
     end);
    cbn [NilEmpty.string_of_uint lit list_ascii_of_string map
         digits_value];
    rewrite decimal_of_digit by (vm_compute; split; discriminate);
    (match goal with
     | |- digits_value (10 * Z.of_N acc + Z.of_N ?k) _ = _ =>
         replace (10 * Z.of_N acc + Z.of_N k)%Z
           with (Z.of_N (10 * acc + k)) by lia
     end);
    rewrite IHd; f_equal; f_equal;
    cbn [Unsigned.usize Unsigned.of_lu]; rewrite N.pow_succ_r';
    vm_compute (N_of_ascii _ - 48)%N; lia.
Qed.

Lemma digits_value_format_int n :
  digits_value 0 (format_int (Z.of_N n)) = Some (Z.of_N n).
Proof.
  rewrite format_int_of_N. change 0%Z with (Z.of_N 0).
  rewrite digits_value_uint, N.mul_0_l, N.add_0_r.
  rewrite <- Unsigned.of_uint_alt.
  change (Pos.of_uint (N.to_uint n)) with (N.of_uint (N.to_uint n)).
  now rewrite DecimalN.Unsigned.of_to.
Qed.

(** [int] reads back the number git prints, when it has no more digits
    than the interpreter accepts. *)
Lemma int_format_int n :
  exceeds_limit (length (format_int (Z.of_N n))) = false ->
  int (format_int (Z.of_N n)) = Some (Z.of_N n).
Proof.
  intros L. unfold int. rewrite L, digits_value_format_int.
  pose proof (to_uint_chars_nonempty n) as N.
  rewrite <- format_int_of_N in N.
  now destruct (format_int (Z.of_N n)).
Qed.

Lemma format_int_digits n :
  format_int (Z.of_N n) <> [] /\
  Forall ascii_digit (format_int (Z.of_N n)).
Proof.
  rewrite format_int_of_N. split;
    [apply to_uint_chars_nonempty|apply uint_chars].
Qed.
End Numbers.

(** ** The matcher on a number followed by words *)

Section NumberThenWords.
Context {U : UnicodeDecimal}.

Lemma accepts_digit d : ascii_digit d -> accepts Digit d = true.
Proof. intros H. simpl. now rewrite decimal_of_digit. Qed.

Lemma accepts_no_digit c :
  (c < 128)%N -> ascii_decimal c = None -> accepts Digit c = false.
Proof. intros L H. simpl. now rewrite decimal_ascii, H. Qed.

Lemma search_unfold ps s :
  search ps s
  = match match_here ps s with
    | Some m => Some m
    | None => match s with [] => None | _ :: s' => search ps s' end
    end.
Proof. destruct s; reflexivity. Qed.

Variable K : str -> option (list str).
Hypothesis KD : rejects_digits K.

Lemma plus_no_digit_head rest :
  no_digit_head rest -> plus_then (accepts Digit) K rest = None.
Proof. destruct rest as [|c r]; simpl; [reflexivity|now intros ->]. Qed.

Lemma plus_digits ds rest :
  Forall ascii_digit ds -> ds <> [] -> no_digit_head rest ->
  plus_then (accepts Digit) K (ds ++ rest)
  = option_map (pair ds) (K rest).
Proof.
  intros F N H. induction ds as [|d ds IH]; [congruence|].
  inversion F as [|? ? Hd Hds]; subst.
  change ((d :: ds) ++ rest) with (d :: (ds ++ rest)).
  cbn [plus_then]. rewrite (accepts_digit Hd).
  destruct ds as [|d' ds'].
  - simpl app. rewrite (@plus_no_digit_head rest H). reflexivity.
  - rewrite IH by (assumption || discriminate).
    destruct (K rest) as [m|]; simpl; [reflexivity|].
    inversion Hds; subst. now rewrite KD.
Qed.
End NumberThenWords.

Section SearchNumber.
Context {U : UnicodeDecimal}.
Variables (cap : bool) (k : pattern).
Hypothesis KD : rejects_digits (match_here k).

Lemma match_number ds rest :
  Forall ascii_digit ds -> ds <> [] -> no_digit_head rest ->
  match_here (number_then cap k) (ds ++ rest)
  = option_map (cons ds) (match_here k rest).
Proof.
  intros F N H. unfold number_then. cbn [match_here rep what].
  rewrite (@plus_digits U _ KD ds rest F N H).
  now destruct (match_here k rest).
Qed.

Lemma search_number_hit ds rest m :
  Forall ascii_digit ds -> ds <> [] -> no_digit_head rest ->
  match_here k rest = Some m ->
  search (number_then cap k) (ds ++ rest) = Some (ds :: m).
Proof.
  intros F N H E. rewrite search_unfold, (@match_number ds rest F N H), E.
  reflexivity.
Qed.

Lemma search_no_digit c s :
  accepts Digit c = false -> search (number_then cap k) (c :: s) = search (number_then cap k) s.
Proof.
  intros H. cbn [search]. unfold number_then at 1.
  cbn [match_here rep what].
  cbn [plus_then]. now rewrite H.
Qed.

Lemma search_no_digits w s :
  Forall (fun c => accepts Digit c = false) w ->
  search (number_then cap k) (w ++ s) = search (number_then cap k) s.
Proof.
  induction 1 as [|c w Hc _ IH]; [reflexivity|].
  simpl app. now rewrite search_no_digit.
Qed.

Lemma search_number_miss ds rest :
  Forall ascii_digit ds -> no_digit_head rest ->
  match_here k rest = None ->
  search (number_then cap k) (ds ++ rest) = search (number_then cap k) rest.
Proof.
  intros F H E. induction ds as [|d ds IH]; [reflexivity|].
  rewrite search_unfold, (@match_number (d :: ds) rest F)
    by (assumption || discriminate).
  rewrite E. simpl. apply IH. now inversion F.
Qed.
End SearchNumber.

(** ** The three patterns on the clauses *)

Section Clauses.
Context {U : UnicodeDecimal}.

Lemma pattern_of_eq k :
  pattern_of k = number_then true (tail_of k).
Proof. destruct k; reflexivity. Qed.

Lemma isspace_digit d : ascii_digit d -> isspace d = false.
Proof.
  intros [L H]. unfold isspace.
  repeat match goal with
  | |- context [(?a <=? ?b)%N] => destruct (N.leb_spec a b); try lia
  | |- context [(?a =? ?b)%N] => destruct (N.eqb_spec a b); try lia
  end; reflexivity.
Qed.

Lemma tail_rejects_digits k : rejects_digits (match_here (tail_of k)).
Proof.
  intros d s H. destruct k; cbn [tail_of pattern_of tl re_files
    re_insertions re_deletions app match_here rep what plus_then accepts];
    now rewrite (isspace_digit H).
Qed.

Lemma words_hit k pl t :
  exists m, match_here (tail_of k) (words k pl ++ t) = Some m.
Proof. destruct k, pl; vm_compute; eexists; reflexivity. Qed.

Lemma words_miss k k' pl t :
  kind_eqb k' k = false ->
  match_here (tail_of k) (words k' pl ++ t) = None.
Proof.
  destruct k, k', pl; try discriminate; intros _; vm_compute;
    reflexivity.
Qed.

Lemma words_no_digits k pl :
  Forall (fun c => accepts Digit c = false) (words k pl).
Proof.
  destruct k, pl; repeat constructor;
    apply accepts_no_digit; vm_compute; reflexivity.
Qed.

Lemma words_head k pl t : no_digit_head (words k pl ++ t).
Proof.
  destruct k, pl; apply accepts_no_digit; vm_compute; reflexivity.
Qed.

Lemma separator_no_digits :
  Forall (fun c => accepts Digit c = false) (lit ", ").
Proof.
  repeat constructor; apply accepts_no_digit; vm_compute; reflexivity.
Qed.

Lemma search_empty k : search (pattern_of k) [] = None.
Proof. destruct k; reflexivity. Qed.

(** A clause of the kind searched for is found, with its number. *)
Lemma search_render_hit c t :
  exists m,
    search (pattern_of (counted c)) (render c ++ t)
    = Some (format_int (Z.of_N (number c)) :: m).
Proof.
  destruct (words_hit (counted c) (plural c) t) as [m E].
  exists m. unfold render. rewrite <- app_assoc, pattern_of_eq.
  destruct (format_int_digits (number c)) as [N F].
  apply search_number_hit; try assumption.
  - apply tail_rejects_digits.
  - apply words_head.
Qed.

(** A clause of another kind is passed over. *)
Lemma search_render_miss k c t :
  kind_eqb (counted c) k = false ->
  search (pattern_of k) (render c ++ t) = search (pattern_of k) t.
Proof.
  intros H. unfold render. rewrite <- app_assoc, pattern_of_eq.
  destruct (format_int_digits (number c)) as [N F].
  rewrite search_number_miss; try assumption.
  - apply search_no_digits, words_no_digits.
  - apply tail_rejects_digits.
  - apply words_head.
  - now apply words_miss.
Qed.

Lemma kind_eqb_eq a b : kind_eqb a b = true -> a = b.
Proof. destruct a, b; (reflexivity || discriminate). Qed.

Lemma group1_pattern_of k t m : group1 (pattern_of k) (t :: m) = t.
Proof. destruct k; reflexivity. Qed.

(** On a line of clauses each count is read, as that of the first clause
    of its kind and as 0 when the line has none. *)
Lemma count_of_line k cs :
  Forall within_limit cs ->
  count_of (pattern_of k) (line_of cs) = ret (first_of k cs).
Proof.
  unfold count_of, first_of, line_of.
  induction 1 as [|c cs W _ IH]; simpl map.
  - cbn [join find]. now rewrite search_empty.
  - cbn [find].
    assert (E : join (lit ", ") (render c :: map render cs)
                = render c ++ match cs with
                              | [] => []
                              | _ => lit ", "
                                       ++ join (lit ", ") (map render cs)
                              end).
    { destruct cs as [|c' cs']; [simpl; now rewrite app_nil_r|].
      reflexivity. }
    rewrite E. clear E.
    destruct (kind_eqb (counted c) k) eqn:Q.
    + apply kind_eqb_eq in Q. subst k.
      destruct (search_render_hit c
                  match cs with
                  | [] => []
                  | _ => lit ", " ++ join (lit ", ") (map render cs)
                  end) as [m ->].
      rewrite group1_pattern_of. now rewrite (int_format_int _ W).
    + rewrite search_render_miss by assumption.
      destruct cs as [|c' cs']; [now rewrite search_empty|].
      rewrite pattern_of_eq.
      rewrite (search_no_digits _ _ _ separator_no_digits).
      rewrite <- pattern_of_eq. exact IH.
Qed.

Lemma count_line k cs :
  Forall within_limit cs ->
  count (pattern_of k) (line_of cs) = first_of k cs.
Proof. intros W. apply count_of_value. now apply count_of_line. Qed.

Lemma readable_line cs : Forall within_limit cs -> readable (line_of cs).
Proof.
  intros W. unfold readable.
  change re_files with (pattern_of Files).
  change re_insertions with (pattern_of Insertions).
  change re_deletions with (pattern_of Deletions).
  rewrite !count_of_line, !count_line by assumption. now repeat split.
Qed.
End Clauses.

(** ** A clause that is not there *)

Section Absent.
Context {U : UnicodeDecimal}.

Lemma takes_chars_text l : forall m,
  Forall2 takes (map (fun c => Piece false One (Chr c)) l) m ->
  concat m = l.
Proof.
  induction l as [|c l IH]; intros m F; inversion F as [|p t ps m' T F'];
    subst; [reflexivity|].
  destruct T as (c' & -> & E). simpl in E.
  apply N.eqb_eq in E. subst c'. simpl. f_equal. now apply IH.
Qed.

Lemma search_some_occurs ps1 w ps2 s m :
  search (ps1 ++ chars w ++ ps2) s = Some m -> occurs (lit w) s.
Proof.
  intros S. apply search_sound in S.
  destruct S as (F & pre & rest & ->).
  apply Forall2_app_inv_l in F. destruct F as (m1 & m' & _ & F & ->).
  apply Forall2_app_inv_l in F. destruct F as (mw & m2 & Fw & _ & ->).
  apply takes_chars_text in Fw.
  exists (pre ++ concat m1), (concat m2 ++ rest).
  rewrite !concat_app, Fw, <- !app_assoc. reflexivity.
Qed.

Lemma pattern_of_noun k :
  exists ps2,
    pattern_of k
    = [Piece true Plus Digit; Piece false Plus Space]
        ++ chars (noun k) ++ ps2.
Proof. destruct k; eexists; reflexivity. Qed.

(** Without the noun of a clause in the line, its pattern finds
    nothing. *)
Lemma search_absent k s :
  ~ occurs (lit (noun k)) s -> search (pattern_of k) s = None.
Proof.
  intros H.
  destruct (search (pattern_of k) s) as [m|] eqn:S; [|reflexivity].
  destruct (pattern_of_noun k) as [ps2 E]. rewrite E in S.
  apply search_some_occurs in S. contradiction.
Qed.
End Absent.

(** ** The line inside its whitespace *)

Lemma lstrip_blank ws s : blank ws -> lstrip (ws ++ s) = lstrip s.
Proof.
  induction 1 as [|c ws Hc _ IH]; [reflexivity|]. simpl. now rewrite Hc.
Qed.

Lemma lstrip_solid c s : isspace c = false -> lstrip (c :: s) = c :: s.
Proof. intros H. simpl. now rewrite H. Qed.

Lemma blank_rev ws : blank ws -> blank (rev ws).
Proof. unfold blank. apply Forall_rev. Qed.

Lemma strip_blank ws : blank ws -> strip ws = [].
Proof.
  intros H. unfold strip, rstrip.
  rewrite <- (app_nil_r ws), lstrip_blank by assumption. reflexivity.
Qed.

(** A text that neither opens nor ends on whitespace is what [strip]
    leaves of it and of the whitespace around. *)
Lemma strip_framed ws1 ws2 c mid pre z :
  blank ws1 -> blank ws2 ->
  isspace c = false -> isspace z = false -> c :: mid = pre ++ [z] ->
  strip (ws1 ++ (c :: mid) ++ ws2) = c :: mid.
Proof.
  intros B1 B2 Hc Hz E. unfold strip, rstrip.
  rewrite lstrip_blank by assumption.
  change ((c :: mid) ++ ws2) with (c :: (mid ++ ws2)).
  rewrite lstrip_solid by assumption.
  change (c :: (mid ++ ws2)) with ((c :: mid) ++ ws2).
  rewrite rev_app_distr, lstrip_blank by (apply blank_rev; assumption).
  rewrite E, rev_app_distr.
  change (rev [z] ++ rev pre) with (z :: rev pre).
  rewrite lstrip_solid by assumption.
  change (z :: rev pre) with (rev [z] ++ rev pre).
  now rewrite <- rev_app_distr, rev_involutive.
Qed.

Section LineEnds.
Context {U : UnicodeDecimal}.

Lemma render_opens c :
  exists d mid, render c = d :: mid /\ isspace d = false.
Proof.
  unfold render. destruct (format_int_digits (number c)) as [N F].
  destruct (format_int (Z.of_N (number c))) as [|d ds]; [congruence|].
  exists d, (ds ++ words (counted c) (plural c)).
  split; [reflexivity|]. inversion F; subst. now apply isspace_digit.
Qed.

Lemma render_ends c :
  exists pre z, render c = pre ++ [z] /\ isspace z = false.
Proof.
  unfold render.
  assert (W : exists w z, words (counted c) (plural c) = w ++ [z]
                          /\ isspace z = false).
  { destruct (counted c), (plural c);
      match goal with
      | |- exists w z, ?W = _ /\ _ =>
          exists (removelast W), (last W 0%N);
          split; vm_compute; reflexivity
      end. }
  destruct W as (w & z & -> & Hz).
  exists (format_int (Z.of_N (number c)) ++ w), z.
  split; [now rewrite app_assoc|assumption].
Qed.

Lemma line_ends c cs :
  exists pre z,
    line_of (c :: cs) = pre ++ [z] /\ isspace z = false.
Proof.
  unfold line_of. revert c. induction cs as [|c' cs IH]; intros c.
  - apply render_ends.
  - destruct (IH c') as (pre & z & E & Hz).
    exists (render c ++ lit ", " ++ pre), z. split; [|assumption].
    simpl map in *. rewrite join_cons by discriminate.
    rewrite E, <- !app_assoc. reflexivity.
Qed.

Lemma line_opens c cs :
  exists d mid, line_of (c :: cs) = d :: mid /\ isspace d = false.
Proof.
  destruct (render_opens c) as (d & mid & E & Hd).
  unfold line_of. simpl map. destruct cs as [|c' cs].
  - now exists d, mid.
  - rewrite join_cons by discriminate. rewrite E.
    now exists d, (mid ++ lit ", " ++ join (lit ", ") (map render (c' :: cs))).
Qed.

(** Git prints the line after a space and ends it with "\n". *)
Lemma strip_line ws1 cs ws2 :
  blank ws1 -> blank ws2 ->
  strip (ws1 ++ line_of cs ++ ws2) = line_of cs.
Proof.
  intros B1 B2. destruct cs as [|c cs].
  - apply strip_blank. unfold blank. rewrite Forall_app. now split.
  - destruct (line_opens c cs) as (d & mid & E & Hd).
    destruct (line_ends c cs) as (pre & z & E' & Hz).
    rewrite E in *. now apply strip_framed with (pre := pre) (z := z).
Qed.
End LineEnds.



Lemma raised_not_returned {A} (m : M A) t e a :
  m = (t, Raise e) -> returned m <> Some a.
Proof. intros ->. discriminate. Qed.

Lemma long_count_not_read :
  ~ readable (U := ascii_table) (strip stats_long_count).
Proof.
  assert (E : count_of (U := ascii_table) re_files (strip stats_long_count)
              = raise ValueError) by (vm_compute; reflexivity).
  intros [R _]. rewrite E in R. discriminate R.
Qed.


(** Its line is a line of clauses, of one clause. *)
Example stats_long_count_line :
  stats_long_count
  = lit " " ++ line_of [Clause Files ((10 ^ 4301 - 1) / 9) true] ++ [LF].
Proof. vm_compute. reflexivity. Qed.

(** The two lines of the specification are lines of clauses. *)
Example stats_three_clauses_line :
  stats_three_clauses
  = lit " " ++ line_of [Clause Files 3 true; Clause Insertions 20 true;
                        Clause Deletions 5 true] ++ [LF].
Proof. reflexivity. Qed.

Example stats_no_insertion_line :
  stats_no_insertion
  = lit " " ++ line_of [Clause Files 1 false; Clause Deletions 4 true]
        ++ [LF].
Proof. reflexivity. Qed.

(* ===================================================================== *)
(** * Further properties of [analyze_file_changes] *)
(* ===================================================================== *)

(** ** The commands of a call, one after the other *)

Section FailFast.
Context {U : UnicodeDecimal}.
Variable exec : executor.

Lemma spawn_exn_none i : spawn_exn exec i = None -> succeeded exec i.
Proof.
  unfold spawn_exn, succeeded. destruct (exec i) as [rc out err|rc|e];
    [|discriminate..].
  destruct (Z.eqb_spec rc 0); [|discriminate]. subst. now do 2 eexists.
Qed.

Lemma succeeded_spawn_exn i : succeeded exec i -> spawn_exn exec i = None.
Proof. intros (out & err & E). unfold spawn_exn. now rewrite E. Qed.

Lemma ff_silent {A} (m : M A) : fst m = [] -> fail_fast exec m.
Proof.
  intros E. split; rewrite E; [intros i e []|constructor].
Qed.

Lemma Forall_removelast {A} (P : A -> Prop) (l : list A) :
  Forall P l -> Forall P (removelast l).
Proof.
  induction 1 as [|x l Hx Hl IH]; [constructor|].
  simpl. destruct l; [constructor|]. now constructor.
Qed.

Lemma ff_bind {A B} (m : M A) (k : A -> M B) :
  fail_fast exec m -> (forall a, fail_fast exec (k a)) ->
  fail_fast exec (bind m k).
Proof.
  intros [Hm Lm] Hk. destruct m as [t [a|e]]; unfold bind; simpl in *.
  - destruct (Hk a) as [Ha La]. split.
    + intros i e I S. apply in_app_or in I. destruct I as [I|I].
      * specialize (Hm i e I S). discriminate Hm.
      * now apply (Ha i e).
    + assert (T : Forall (succeeded exec) t).
      { apply Forall_forall. intros i I.
        destruct (spawn_exn exec i) as [e|] eqn:S.
        - specialize (Hm i e I S). discriminate Hm.
        - now apply spawn_exn_none. }
      destruct (fst (k a)) as [|j t2] eqn:E.
      * cbn [fst]. rewrite app_nil_r. now apply Forall_removelast.
      * cbn [fst]. rewrite removelast_app by discriminate.
        apply Forall_app. now split.
  - split; [|assumption]. intros i e' I S.
    specialize (Hm i e' I S). now injection Hm as ->.
Qed.

Lemma ff_run_git wd args : fail_fast exec (run_git exec wd args).
Proof.
  split; [|constructor].
  intros i e [<-|[]]. unfold spawn_exn. simpl.
  destruct (exec _) as [rc out err|rc|e'];
    [|now intros [= <-]|now intros [= ->]].
  destruct (rc =? 0)%Z; [discriminate|now intros [= <-]].
Qed.

Lemma ff_collect base_branch pathspec wd :
  fail_fast exec (collect exec base_branch pathspec wd).
Proof.
  unfold collect.
  repeat (apply ff_bind;
          [first [apply ff_run_git | apply ff_silent, count_of_silent]
          |intro]).
  now apply ff_silent.
Qed.

Lemma ff_fetch_diff base_branch max_diff_lines pathspec wd result :
  fail_fast exec
    (fetch_diff exec base_branch max_diff_lines pathspec wd result).
Proof.
  unfold fetch_diff. apply ff_bind; [apply ff_run_git|intros p].
  apply ff_silent. now destruct truncate_diff.
Qed.

(** Once the working directory is resolved, the body is fail-fast. *)
Lemma ff_after_resolve base_branch (include_diff : bool) max_diff_lines
    pathspec wd :
  fail_fast exec
    (result <- collect exec base_branch pathspec wd ;;
     if include_diff
     then fetch_diff exec base_branch max_diff_lines pathspec wd result
     else ret (JObj result)).
Proof.
  apply ff_bind; [apply ff_collect|intros result].
  destruct include_diff; [apply ff_fetch_diff|now apply ff_silent].
Qed.

Lemma ff_analysis list_roots base_branch include_diff max_diff_lines
    cwd_from_root pathspec :
  fail_fast exec
    (analysis exec list_roots base_branch include_diff max_diff_lines
       cwd_from_root pathspec).
Proof.
  unfold analysis. apply ff_bind; [apply ff_silent, resolve_trace|].
  intros wd. apply ff_after_resolve.
Qed.

Lemma analyze_is_analysis list_roots base_branch include_diff
    max_diff_lines cwd_from_root pathspec :
  analyze_file_changes exec list_roots base_branch include_diff
    max_diff_lines cwd_from_root pathspec
  = try_except
      (analysis exec list_roots base_branch include_diff max_diff_lines
         cwd_from_root pathspec)
      boundary.
Proof. apply analyze_unfold. Qed.
End FailFast.

(** ** Every way a call can go *)

Section Cases.
Context {U : UnicodeDecimal}.
Variable exec : executor.

Lemma run_git_step wd args {A} (k : CompletedProcess -> M A) :
  (exists out err,
      exec (Invocation wd (lit "git" :: args)) = Exited 0 out err
      /\ bind (run_git exec wd args) k
         = (Invocation wd (lit "git" :: args)
              :: fst (k (Completed out err)),
            snd (k (Completed out err))))
  \/ (exists e,
         spawn_exn exec (Invocation wd (lit "git" :: args)) = Some e
         /\ bind (run_git exec wd args) k
            = ([Invocation wd (lit "git" :: args)], Raise e)).
Proof.
  unfold run_git, subprocess_run, bind, spawn_exn. simpl.
  destruct (exec _) as [rc out err|rc|e].
  - destruct (Z.eqb_spec rc 0) as [->|N].
    + left. now exists out, err.
    + right. now eexists.
  - right. now eexists.
  - right. now eexists.
Qed.

(** Steps 2 to 5 either go through, all four commands exiting with status
    0 and the counts being read, or stop at the first command that does
    not, or at a count that is not read. *)
Lemma collect_cases base_branch pathspec wd :
  (exists names stats,
      (exists out, prints exec wd version_cmd out)
      /\ (exists out, prints exec wd work_tree_cmd out)
      /\ prints exec wd (name_status_cmd base_branch pathspec) names
      /\ prints exec wd (shortstat_cmd base_branch pathspec) stats
      /\ readable (strip stats)
      /\ collect exec base_branch pathspec wd
         = (map (Invocation wd) (collect_cmds base_branch pathspec),
            Return (result_of base_branch names stats)))
  \/ (exists n e,
         (n <= 4)%nat
         /\ collect exec base_branch pathspec wd
            = (map (Invocation wd)
                   (firstn n (collect_cmds base_branch pathspec)),
               Raise e)).
Proof.
  unfold collect.
  match goal with
  | |- context [bind (run_git exec wd ?a) ?k] =>
      destruct (run_git_step wd a k) as [(o1 & e1 & E1 & ->)|(e & _ & ->)]
  end; [|right; now exists 1%nat, e; split; [lia|]].
  match goal with
  | |- context [bind (run_git exec wd ?a) ?k] =>
      destruct (run_git_step wd a k) as [(o2 & e2 & E2 & ->)|(e & _ & ->)]
  end; [|right; now exists 2%nat, e; split; [lia|]].
  match goal with
  | |- context [bind (run_git exec wd ?a) ?k] =>
      destruct (run_git_step wd a k) as [(o3 & e3 & E3 & ->)|(e & _ & ->)]
  end; [|right; now exists 3%nat, e; split; [lia|]].
  match goal with
  | |- context [bind (run_git exec wd ?a) ?k] =>
      destruct (run_git_step wd a k) as [(o4 & e4 & E4 & ->)|(e & _ & ->)]
  end; [|right; now exists 4%nat, e; split; [lia|]].
  cbn [stdout fst snd].
  destruct (count_of_cases re_files (strip o4)) as [Rf|Rf];
    [|right; exists 4%nat, ValueError; split; [lia|now rewrite Rf]].
  destruct (count_of_cases re_insertions (strip o4)) as [Ri|Ri];
    [|right; exists 4%nat, ValueError; split; [lia|];
      now rewrite Rf, bind_ret, Ri].
  destruct (count_of_cases re_deletions (strip o4)) as [Rd|Rd];
    [|right; exists 4%nat, ValueError; split; [lia|];
      now rewrite Rf, bind_ret, Ri, bind_ret, Rd].
  left. exists o3, o4.
  split; [exists o1, e1; exact E1|]. split; [exists o2, e2; exact E2|].
  split; [exists e3; exact E3|]. split; [exists e4; exact E4|].
  split; [now repeat split|].
  rewrite Rf, bind_ret, Ri, bind_ret, Rd, bind_ret.
  reflexivity.
Qed.
End Cases.

Lemma map_argv_invocations wd (cmds : list (list str)) :
  map argv (map (Invocation wd) cmds) = cmds.
Proof. rewrite map_map. simpl. apply map_id. Qed.

Lemma firstn_within {A} n (l l' : list A) :
  (n <= length l)%nat -> firstn n (l ++ l') = firstn n l.
Proof.
  intros H. rewrite firstn_app.
  replace (n - length l)%nat with 0%nat by lia.
  simpl. apply app_nil_r.
Qed.

(** X1.  The commands of a call are run in one fixed order (version,
    work tree, listing, statistics and, when the diff is asked for, diff),
    each only after every one before it has exited with status 0, and all
    in the same working directory. *)
Theorem commands_run_in_order :
  forall (U : UnicodeDecimal) (exec : executor) (list_roots : host)
         (base_branch : str) (include_diff : bool) (max_diff_lines : Z)
         (cwd_from_root : bool) (pathspec : str),
    let call :=
      analyze_file_changes exec list_roots base_branch include_diff
        max_diff_lines cwd_from_root pathspec in
    (exists n, map argv (fst call)
               = firstn n (commands_of base_branch pathspec include_diff))
    /\ Forall (succeeded exec) (removelast (fst call))
    /\ (exists wd, runs_in wd call).
Proof.
  intros U exec list_roots base_branch include_diff max_diff_lines
         cwd_from_root pathspec call.
  split; [|split].
  - unfold call. rewrite analyze_unfold, try_except_boundary_trace.
    rewrite resolve_eta.
    destruct (snd (resolve_working_dir list_roots cwd_from_root))
      as [wd|e]; [|now exists 0%nat].
    rewrite bind_return. simpl app. unfold commands_of.
    destruct (collect_cases exec base_branch pathspec wd)
      as [(names & stats & _ & _ & _ & _ & _ & ->)|(n & e & Hn & ->)].
    + rewrite bind_return. destruct include_diff.
      * exists 5%nat. unfold fetch_diff.
        match goal with
        | |- context [bind (run_git exec wd ?a) ?k] =>
            destruct (run_git_step exec wd a k)
              as [(o & e & _ & ->)|(e & _ & ->)]
        end.
        -- cbn [fst stdout]. destruct (truncate_diff _ _).
           cbn [fst ret]. rewrite map_app, map_argv_invocations.
           reflexivity.
        -- cbn [fst]. rewrite map_app, map_argv_invocations. reflexivity.
      * exists 4%nat. cbn [fst ret].
        rewrite !app_nil_r, map_argv_invocations. reflexivity.
    + rewrite bind_raise. cbn [fst]. rewrite map_argv_invocations.
      exists n. symmetry. now apply firstn_within.
  - unfold call. rewrite analyze_is_analysis, try_except_boundary_trace.
    apply ff_analysis.
  - unfold call.
    destruct (snd (resolve_working_dir list_roots cwd_from_root))
      as [wd|e] eqn:R.
    + exists wd. now apply analyze_runs_in.
    + exists None. unfold runs_in.
      rewrite analyze_unfold, try_except_boundary_trace, resolve_eta, R.
      constructor.
Qed.

Section Outcome.
Context {U : UnicodeDecimal}.
Variable exec : executor.
Variable list_roots : host.
Variables (base_branch pathspec : str) (include_diff cwd_from_root : bool).
Variable max_diff_lines : Z.

(** What a command of the call raised is what the body raised. *)
Lemma analysis_raises i e :
  In i (fst (analyze_file_changes exec list_roots base_branch include_diff
               max_diff_lines cwd_from_root pathspec)) ->
  spawn_exn exec i = Some e ->
  snd (analysis exec list_roots base_branch include_diff max_diff_lines
         cwd_from_root pathspec) = Raise e.
Proof.
  rewrite analyze_is_analysis, try_except_boundary_trace.
  apply ff_analysis.
Qed.
End Outcome.

(** X2.  For every call, if a command of the call cannot be started
    because of a [FileNotFoundError] (git missing, or the working
    directory given by the host gone), the call returns the
    [git_not_found] document. *)
Theorem not_found_when_not_started :
  forall (U : UnicodeDecimal) (exec : executor) (list_roots : host)
         (base_branch : str) (include_diff : bool) (max_diff_lines : Z)
         (cwd_from_root : bool) (pathspec : str) (i : invocation),
    In i (fst (analyze_file_changes exec list_roots base_branch
                 include_diff max_diff_lines cwd_from_root pathspec)) ->
    exec i = NotStarted FileNotFoundError ->
    snd (analyze_file_changes exec list_roots base_branch include_diff
           max_diff_lines cwd_from_root pathspec)
    = Return (JObj [(key "error", jstr "git_not_found");
                    (key "hint",
                     jstr "Git is not installed or not in PATH.")]).
Proof.
  intros U exec list_roots base_branch include_diff max_diff_lines
         cwd_from_root pathspec i I E.
  assert (S : spawn_exn exec i = Some FileNotFoundError)
    by (unfold spawn_exn; now rewrite E).
  pose proof (analysis_raises _ _ _ _ _ _ _ _ I S) as R.
  rewrite analyze_is_analysis. unfold try_except. now rewrite R.
Qed.

Lemma not_found_when_not_started_witness :
  snd (analyze_file_changes (U := ascii_table) directory_gone
         (Return [Root (Some (lit "/gone"))]) main true 500 true [])
  = Return (JObj [(key "error", jstr "git_not_found");
                  (key "hint",
                   jstr "Git is not installed or not in PATH.")]).
Proof.
  apply (@not_found_when_not_started ascii_table directory_gone
           (Return [Root (Some (lit "/gone"))]) main true 500 true []
           (Invocation (Some (lit "/gone")) version_cmd)).
  - vm_compute. tauto.
  - reflexivity.
Defined.

(** X3.  For every call, if a command of the call cannot be started
    because of an exception that is neither [CalledProcessError] nor
    [FileNotFoundError], that exception leaves the operation: no document
    is returned. *)
Theorem other_exceptions_leave :
  forall (U : UnicodeDecimal) (exec : executor) (list_roots : host)
         (base_branch : str) (include_diff : bool) (max_diff_lines : Z)
         (cwd_from_root : bool) (pathspec : str) (i : invocation)
         (e : exn),
    In i (fst (analyze_file_changes exec list_roots base_branch
                 include_diff max_diff_lines cwd_from_root pathspec)) ->
    exec i = NotStarted e ->
    boundary e = None ->
    snd (analyze_file_changes exec list_roots base_branch include_diff
           max_diff_lines cwd_from_root pathspec)
    = Raise e.
Proof.
  intros U exec list_roots base_branch include_diff max_diff_lines
         cwd_from_root pathspec i e I E B.
  assert (S : spawn_exn exec i = Some e)
    by (unfold spawn_exn; now rewrite E).
  pose proof (analysis_raises _ _ _ _ _ _ _ _ I S) as R.
  rewrite analyze_is_analysis. unfold try_except.
  rewrite R, B. exact R.
Qed.

Lemma other_exceptions_leave_witness :
  snd (analyze_file_changes (U := ascii_table) git_not_executable
         (Return []) main true 500 true [])
  = Raise (OtherException "PermissionError").
Proof.
  apply (@other_exceptions_leave ascii_table git_not_executable
           (Return []) main true 500 true []
           (Invocation None version_cmd)).
  - vm_compute. tauto.
  - reflexivity.
  - reflexivity.
Defined.

Lemma try_except_raised (e : exn) :
  forall e', snd (try_except (([], Raise e) : M json) boundary) = Raise e'
             -> boundary e' = None.
Proof.
  unfold try_except. simpl. destruct e; simpl; intros e' [= <-];
    reflexivity.
Qed.

Lemma boundary_outcome (m : M json) :
  snd (try_except m boundary)
  = match snd m with
    | Return doc => Return doc
    | Raise (CalledProcessError cmd err) =>
        Return (git_failed_doc cmd err)
    | Raise FileNotFoundError => Return git_not_found_doc
    | Raise e => Raise e
    end.
Proof.
  destruct m as [t [doc|e]]; unfold try_except; simpl; [reflexivity|].
  destruct e; reflexivity.
Qed.

Section Succeeded.
Context {U : UnicodeDecimal}.
Variable exec : executor.
Variable list_roots : host.
Variables (base_branch pathspec : str) (include_diff cwd_from_root : bool).
Variable max_diff_lines : Z.

(** A call that returns a document that is not an error went through
    every step. *)
Lemma success_went_through doc :
  returned (analyze_file_changes exec list_roots base_branch
              include_diff max_diff_lines cwd_from_root pathspec)
  = Some doc ->
  is_error doc = false ->
  exists wd names stats,
    commands_succeed exec list_roots cwd_from_root base_branch
                     pathspec wd names stats
    /\ readable (strip stats)
    /\ (include_diff = true ->
        exists raw, prints exec wd (diff_cmd base_branch pathspec) raw).
Proof.
  intros R N. unfold returned in R.
  rewrite analyze_unfold, boundary_outcome, resolve_eta in R.
  destruct (snd (resolve_working_dir list_roots cwd_from_root))
    as [wd|e] eqn:Hwd.
  2:{ rewrite bind_raise in R. cbn [snd] in R.
      destruct e; try discriminate R; injection R as <-;
        discriminate N. }
  rewrite bind_return in R. cbn [snd] in R.
  destruct (collect_cases exec base_branch pathspec wd)
    as [(names & stats & V & W & Pn & Ps & Rd & E)|(n & e & _ & E)];
    rewrite E in R.
  2:{ rewrite bind_raise in R. cbn [snd] in R.
      destruct e; try discriminate R; injection R as <-;
        discriminate N. }
  exists wd, names, stats. split; [now constructor|].
  split; [exact Rd|].
  intros ->. rewrite bind_return in R. cbn [snd] in R.
  unfold fetch_diff in R.
  match type of R with
  | context [bind (run_git exec wd ?a) ?k] =>
      destruct (run_git_step exec wd a k)
        as [(o & e & Eo & Eb)|(e & _ & Eb)]; rewrite Eb in R
  end.
  - exists o, e. exact Eo.
  - cbn [snd] in R.
    destruct e; try discriminate R; injection R as <-; discriminate N.
Qed.

(** Its document holds the fields of [result] first. *)
Lemma success_document doc :
  returned (analyze_file_changes exec list_roots base_branch
              include_diff max_diff_lines cwd_from_root pathspec)
  = Some doc ->
  is_error doc = false ->
  exists names stats more,
    doc = JObj (result_of base_branch names stats ++ more).
Proof.
  intros R N.
  destruct (success_went_through R N) as (wd & names & stats & S & Rd & D).
  destruct (analyze_succeeds max_diff_lines (Build_collects S Rd) D)
    as (t & more & E).
  unfold returned in R. rewrite E in R. cbn [snd] in R.
  injection R as <-. now exists names, stats, more.
Qed.
End Succeeded.

(** X4.  For a cap that the f-string of the marker renders, a call
    returns a document that is not an error exactly when its working
    directory is resolved, every command it has to run (the four of the
    collection and, when the diff is asked for, the diff) exits with
    status 0 and output that decodes, and the three counts of the
    statistics are read by [int]. *)
Theorem success_needs_every_command :
  forall (U : UnicodeDecimal) (exec : executor) (list_roots : host)
         (base_branch : str) (include_diff : bool) (max_diff_lines : Z)
         (cwd_from_root : bool) (pathspec : str),
    renders max_diff_lines = true ->
    (exists doc,
        returned (analyze_file_changes exec list_roots base_branch
                    include_diff max_diff_lines cwd_from_root pathspec)
        = Some doc
        /\ is_error doc = false)
    <-> (exists wd names stats,
            commands_succeed exec list_roots cwd_from_root base_branch
                             pathspec wd names stats
            /\ readable (strip stats)
            /\ (include_diff = true ->
                exists raw,
                  prints exec wd (diff_cmd base_branch pathspec) raw)).
Proof.
  intros U exec list_roots base_branch include_diff max_diff_lines
         cwd_from_root pathspec _.
  split.
  - intros (doc & R & N).
    exact (@success_went_through U _ _ _ _ _ _ _ doc R N).
  - intros (wd & names & stats & S & Rd & D).
    pose proof (Build_collects S Rd) as C. destruct include_diff.
    + destruct (D eq_refl) as [raw P].
      eexists. unfold returned.
      rewrite (analyze_with_diff C max_diff_lines P). cbn [snd].
      split; reflexivity.
    + eexists. unfold returned.
      rewrite (analyze_without_diff C). cbn [snd].
      split; reflexivity.
Qed.

Lemma success_needs_every_command_witness :
  (exists doc,
      returned (analyze_file_changes (U := ascii_table)
                  (repository names_with_rename stats_no_insertion [])
                  (Return []) main true 500 false [])
      = Some doc
      /\ is_error doc = false)
  <-> (exists wd names stats,
          commands_succeed
            (repository names_with_rename stats_no_insertion [])
            (Return []) false main [] wd names stats
          /\ readable (U := ascii_table) (strip stats)
          /\ (true = true ->
              exists raw,
                prints (repository names_with_rename stats_no_insertion [])
                       wd (diff_cmd main []) raw)).
Proof.
  apply (@success_needs_every_command ascii_table
           (repository names_with_rename stats_no_insertion [])
           (Return []) main true 500 false []).
  reflexivity.
Defined.

(** X5.  No call lets a [CalledProcessError] or a [FileNotFoundError]
    out, wherever it comes from, a command or the host: an exception that
    leaves the operation is one the two [except] clauses do not name. *)
Theorem handled_exceptions_never_leave :
  forall (U : UnicodeDecimal) (exec : executor) (list_roots : host)
         (base_branch : str) (include_diff : bool) (max_diff_lines : Z)
         (cwd_from_root : bool) (pathspec : str),
    (forall cmd err,
        snd (analyze_file_changes exec list_roots base_branch include_diff
               max_diff_lines cwd_from_root pathspec)
        <> Raise (CalledProcessError cmd err))
    /\ snd (analyze_file_changes exec list_roots base_branch include_diff
              max_diff_lines cwd_from_root pathspec)
       <> Raise FileNotFoundError.
Proof.
  intros U exec list_roots base_branch include_diff max_diff_lines
         cwd_from_root pathspec.
  rewrite analyze_unfold, boundary_outcome.
  split; [intros cmd err|];
    (destruct (snd _) as [doc|e]; [discriminate|destruct e; discriminate]).
Qed.

(** X6.  Whatever document a call returns is of one of three shapes: the
    [git_failed] document, the [git_not_found] document, or a document
    without [error] whose keys are [base_branch], [changed_files] and
    [summary], followed by [diff] and [truncated] exactly when the diff
    is asked for, and whose [base_branch] is the argument as given. *)
Theorem returned_document_shapes :
  forall (U : UnicodeDecimal) (exec : executor) (list_roots : host)
         (base_branch : str) (include_diff : bool) (max_diff_lines : Z)
         (cwd_from_root : bool) (pathspec : str) (doc : json),
    returned (analyze_file_changes exec list_roots base_branch
                include_diff max_diff_lines cwd_from_root pathspec)
    = Some doc ->
    (exists cmd err,
        doc = JObj [(key "error", jstr "git_failed");
                    (key "cmd", JArr (map JStr cmd));
                    (key "stderr", JStr (strip err))])
    \/ doc = JObj [(key "error", jstr "git_not_found");
                   (key "hint",
                    jstr "Git is not installed or not in PATH.")]
    \/ (is_error doc = false
        /\ keys doc = success_keys include_diff
        /\ field "base_branch" doc = Some (JStr base_branch)).
Proof.
  intros U exec list_roots base_branch include_diff max_diff_lines
         cwd_from_root pathspec doc R0.
  assert (R : snd (analyze_file_changes exec list_roots base_branch
                     include_diff max_diff_lines cwd_from_root pathspec)
              = Return doc).
  { unfold returned in R0. destruct (snd _); [now injection R0 as ->|].
    discriminate R0. }
  clear R0. rewrite analyze_unfold, boundary_outcome in R.
  assert (Err : forall e : exn,
             match e with
             | CalledProcessError cmd err =>
                 Return (git_failed_doc cmd err)
             | FileNotFoundError => Return git_not_found_doc
             | _ => Raise e
             end = Return doc ->
             (exists cmd err,
                 doc = JObj [(key "error", jstr "git_failed");
                             (key "cmd", JArr (map JStr cmd));
                             (key "stderr", JStr (strip err))])
             \/ doc = git_not_found_doc).
  { intros e H. destruct e as [cmd err| | | |name];
      try discriminate H; injection H as <-.
    - left. exists cmd.
      exists (match err with Some t => t | None => [] end).
      unfold git_failed_doc. destruct err as [t|]; [|reflexivity].
      now rewrite strip_or_empty.
    - now right. }
  rewrite resolve_eta in R.
  destruct (snd (resolve_working_dir list_roots cwd_from_root))
    as [wd|e].
  2:{ rewrite bind_raise in R. cbn [snd] in R.
      destruct (Err e R) as [H|H]; tauto. }
  rewrite bind_return in R. cbn [snd] in R.
  destruct (collect_cases exec base_branch pathspec wd)
    as [(names & stats & _ & _ & _ & _ & _ & E)|(n & e & _ & E)];
    rewrite E in R.
  2:{ rewrite bind_raise in R. cbn [snd] in R.
      destruct (Err e R) as [H|H]; tauto. }
  rewrite bind_return in R. cbn [snd] in R. destruct include_diff.
  - unfold fetch_diff in R.
    match type of R with
    | context [bind (run_git exec wd ?a) ?k] =>
        destruct (run_git_step exec wd a k)
          as [(o & e & _ & Eb)|(e & _ & Eb)]; rewrite Eb in R
    end.
    + cbn [snd stdout] in R. destruct (truncate_diff _ _) as [ls tr].
      cbn [snd ret] in R. injection R as <-. right. right.
      repeat split.
    + cbn [snd] in R.
      destruct (Err e R) as [H|H]; tauto.
  - cbn [snd ret] in R. injection R as <-. right. right. repeat split.
Qed.

Lemma returned_document_shapes_witness :
  (exists cmd err,
      JObj (result_of (U := ascii_table) main names_with_rename [])
      = JObj [(key "error", jstr "git_failed");
              (key "cmd", JArr (map JStr cmd));
              (key "stderr", JStr (strip err))])
  \/ JObj (result_of (U := ascii_table) main names_with_rename [])
     = JObj [(key "error", jstr "git_not_found");
             (key "hint", jstr "Git is not installed or not in PATH.")]
  \/ (is_error (JObj (result_of (U := ascii_table) main
                        names_with_rename [])) = false
      /\ keys (JObj (result_of (U := ascii_table) main
                       names_with_rename []))
         = success_keys false
      /\ field "base_branch"
           (JObj (result_of (U := ascii_table) main names_with_rename []))
         = Some (JStr main)).
Proof.
  apply (@returned_document_shapes ascii_table
           (repository names_with_rename [] []) (Return []) main false
           500 false []).
  reflexivity.
Defined.

(* ===================================================================== *)
(** * Further properties of the cut, the listing and the counts *)
(* ===================================================================== *)

Lemma slice_to_negative {A} (xs : list A) n :
  (n < 0)%Z ->
  slice_to xs n = firstn (Z.to_nat (Z.of_nat (length xs) + n)) xs.
Proof.
  intros H. unfold slice_to. destruct (Z.ltb_spec n 0); [|lia].
  f_equal. lia.
Qed.

(** X7.  With a negative [max_diff_lines] whose digits are no more than
    the f-string of the marker renders, every diff of a call whose steps
    1 to 5 go through is reported as truncated, an empty one too; the
    lines kept are those of [lines[:max]], that is all the raw lines but
    the last [-max_diff_lines], and the marker names the negative cap. *)
Theorem negative_cap_always_truncates :
  forall (U : UnicodeDecimal) (exec : executor) (list_roots : host)
         (base_branch : str) (max_diff_lines : Z) (cwd_from_root : bool)
         (pathspec : str) (wd : option str) (names stats raw : str),
    collects exec list_roots cwd_from_root base_branch pathspec
             wd names stats ->
    prints exec wd (diff_cmd base_branch pathspec) raw ->
    (max_diff_lines < 0)%Z ->
    renders max_diff_lines = true ->
    let lines := splitlines raw in
    let L := Z.of_nat (length lines) in
    exists t doc,
      analyze_file_changes exec list_roots base_branch true max_diff_lines
        cwd_from_root pathspec = (t, Return doc)
      /\ truncated_of doc = Some true
      /\ diff_of doc
         = Some (join [LF]
                   (firstn (Z.to_nat (L + max_diff_lines)) lines
                      ++ [truncation_marker max_diff_lines])).
Proof.
  intros U exec list_roots base_branch max_diff_lines cwd_from_root
         pathspec wd names stats raw C P Neg Rn lines L.
  rewrite (analyze_with_diff C max_diff_lines P).
  do 2 eexists. split; [reflexivity|].
  fold lines. unfold truncate_diff. fold L.
  destruct (Z.gtb_spec L max_diff_lines) as [G|G]; [|unfold L in G; lia].
  split; [reflexivity|].
  unfold diff_of, field. cbn [lookup result_of app fst snd].
  rewrite slice_to_negative by assumption. reflexivity.
Qed.

Lemma negative_cap_always_truncates_witness :
  exists t doc,
    analyze_file_changes (U := ascii_table)
      (repository [] [] (text ["a"; "b"; "c"]%string)) (Return []) main
      true (-2) false [] = (t, Return doc)
    /\ truncated_of doc = Some true
    /\ diff_of doc
       = Some (join [LF] ([lit "a"] ++ [truncation_marker (-2)])).
Proof.
  refine (@negative_cap_always_truncates ascii_table
            (repository [] [] (text ["a"; "b"; "c"]%string)) (Return [])
            main (-2) false [] None [] [] (text ["a"; "b"; "c"]%string)
            (repository_collects [] [] (text ["a"; "b"; "c"]%string)
              readable_empty)
            (repository_prints [] [] (text ["a"; "b"; "c"]%string)) _ _).
  - reflexivity.
  - reflexivity.
Defined.

Section NonNegative.
Context {U : UnicodeDecimal}.

Lemma digits_value_nonneg s : forall acc n,
  (0 <= acc)%Z -> digits_value acc s = Some n -> (0 <= n)%Z.
Proof.
  induction s as [|c s IH]; simpl; intros acc n H.
  - now intros [= <-].
  - destruct (decimal c) as [d|]; [|discriminate].
    intros E. apply (IH (10 * acc + Z.of_N d)%Z n); [lia|exact E].
Qed.

Lemma count_nonneg ps s : (0 <= count ps s)%Z.
Proof.
  unfold count. destruct (search ps s) as [m|]; [|lia].
  destruct (int (group1 ps m)) as [n|] eqn:E; [|lia].
  unfold int in E. destruct (group1 ps m); [discriminate|].
  destruct (exceeds_limit _); [discriminate|].
  now apply digits_value_nonneg in E.
Qed.
End NonNegative.

(** X8.  Whatever document a call returns without an error, the three
    counts of its summary are integers that are not negative. *)
Theorem summary_counts_not_negative :
  forall (U : UnicodeDecimal) (exec : executor) (list_roots : host)
         (base_branch : str) (include_diff : bool) (max_diff_lines : Z)
         (cwd_from_root : bool) (pathspec : str) (doc : json),
    returned (analyze_file_changes exec list_roots base_branch
                include_diff max_diff_lines cwd_from_root pathspec)
    = Some doc ->
    is_error doc = false ->
    exists files insertions deletions,
      summary_is doc files insertions deletions
      /\ (0 <= files)%Z /\ (0 <= insertions)%Z /\ (0 <= deletions)%Z.
Proof.
  intros U exec list_roots base_branch include_diff max_diff_lines
         cwd_from_root pathspec doc R N.
  destruct (@success_document U _ _ _ _ _ _ _ doc R N)
    as (names & stats & more & ->).
  do 3 eexists. split; [reflexivity|].
  repeat split; apply count_nonneg.
Qed.

Lemma summary_counts_not_negative_witness :
  exists files insertions deletions,
    summary_is (JObj (result_of (U := ascii_table) main []
                        stats_no_insertion))
               files insertions deletions
    /\ (0 <= files)%Z /\ (0 <= insertions)%Z /\ (0 <= deletions)%Z.
Proof.
  apply (@summary_counts_not_negative ascii_table
           (repository [] stats_no_insertion []) (Return []) main false
           500 false []).
  - reflexivity.
  - reflexivity.
Defined.

Lemma splitlines_Forall (P : char -> Prop) s :
  Forall P s -> Forall (Forall P) (splitlines s).
Proof.
  remember (length s) as n eqn:E.
  revert s E. induction n as [n IH] using lt_wf_ind. intros s -> F.
  destruct s as [|c s]; [constructor|].
  inversion F as [|? ? Hc Hs]; subst. simpl.
  destruct (is_linebreak c).
  - constructor; [constructor|].
    destruct s as [|c' s']; [constructor|].
    destruct ((c =? CR) && (c' =? LF))%N.
    + inversion Hs; subst.
      eapply IH; [|reflexivity|assumption]. simpl. lia.
    + eapply IH; [|reflexivity|assumption]. simpl. lia.
  - assert (H : Forall (Forall P) (splitlines s))
      by (eapply IH; [|reflexivity|assumption]; simpl; lia).
    destruct (splitlines s) as [|l ls]; [repeat constructor; assumption|].
    inversion H; subst. constructor; [|assumption].
    constructor; assumption.
Qed.

Lemma record_of_no_tab line :
  no_tab line -> record_of line = whole_line_record line.
Proof.
  intros H. unfold record_of. now rewrite split_no_tab.
Qed.



(** X10.  The document of a successful call is made of the base branch
    and of what git printed on standard output for the listing, the
    statistics and the diff, and of nothing else: two calls that agree on
    these return the same document, whatever their working directories,
    their pathspecs, their hosts, the output of the two probes and the
    standard error of any command. *)
Theorem document_made_of_the_outputs :
  forall (U : UnicodeDecimal) (exec exec' : executor)
         (list_roots list_roots' : host) (base_branch : str)
         (include_diff : bool) (max_diff_lines : Z)
         (cwd_from_root cwd_from_root' : bool) (pathspec pathspec' : str)
         (wd wd' : option str) (names stats raw : str),
    collects exec list_roots cwd_from_root base_branch pathspec
             wd names stats ->
    collects exec' list_roots' cwd_from_root' base_branch pathspec'
             wd' names stats ->
    (include_diff = true ->
     prints exec wd (diff_cmd base_branch pathspec) raw
     /\ prints exec' wd' (diff_cmd base_branch pathspec') raw) ->
    snd (analyze_file_changes exec list_roots base_branch include_diff
           max_diff_lines cwd_from_root pathspec)
    = snd (analyze_file_changes exec' list_roots' base_branch include_diff
             max_diff_lines cwd_from_root' pathspec').
Proof.
  intros U exec exec' list_roots list_roots' base_branch include_diff
         max_diff_lines cwd_from_root cwd_from_root' pathspec pathspec'
         wd wd' names stats raw C C' D.
  destruct include_diff.
  - destruct (D eq_refl) as [P P'].
    now rewrite (analyze_with_diff C max_diff_lines P),
                (analyze_with_diff C' max_diff_lines P').
  - now rewrite (analyze_without_diff C), (analyze_without_diff C').
Qed.

Lemma repository_collects_in_root (U : UnicodeDecimal) names stats raw
    dir :
  readable (strip stats) ->
  collects (repository names stats raw) (Return [Root (Some dir)]) true
           main [] (Some dir) names stats.
Proof.
  intros R. split; [|exact R]. constructor.
  - reflexivity.
  - eexists. eexists. reflexivity.
  - eexists. eexists. reflexivity.
  - eexists. reflexivity.
  - eexists. reflexivity.
Qed.

Lemma document_made_of_the_outputs_witness :
  snd (analyze_file_changes (U := ascii_table)
         (repository names_with_rename stats_no_insertion
            (text ["a"]%string))
         (Return []) main true 500 false [])
  = snd (analyze_file_changes (U := ascii_table)
           (repository names_with_rename stats_no_insertion
              (text ["a"]%string))
           (Return [Root (Some (lit "/work"))]) main true 500 true []).
Proof.
  apply (@document_made_of_the_outputs ascii_table _ _ _ _ main true 500
           false true [] [] None (Some (lit "/work"))
           names_with_rename stats_no_insertion (text ["a"]%string)
           (repository_collects _ _ _ readable_no_insertion)
           (repository_collects_in_root _ _ _ _ readable_no_insertion)).
  intros _. split; eexists; reflexivity.
Defined.

Lemma changed_files_of_blank lines :
  Forall blank lines -> changed_files_of lines = [].
Proof.
  induction 1 as [|l ls Hl _ IH]; [reflexivity|].
  simpl. now rewrite (strip_blank Hl).
Qed.

Section NoChange.
Context {U : UnicodeDecimal}.

Lemma summary_of_blank stats :
  blank stats ->
  summary_of stats
  = JObj [(key "files", JInt 0); (key "insertions", JInt 0);
          (key "deletions", JInt 0)].
Proof.
  intros B. unfold summary_of. now rewrite (strip_blank B).
Qed.
End NoChange.

(** X11.  When git prints nothing but whitespace for the listing and for
    the statistics and nothing at all for the diff (the branch has no
    change), and the cap is not negative, the call returns an empty list
    of changed files, a summary of three zeros, an empty diff and
    [truncated] false. *)
Theorem no_change_document :
  forall (U : UnicodeDecimal) (exec : executor) (list_roots : host)
         (base_branch : str) (max_diff_lines : Z) (cwd_from_root : bool)
         (pathspec : str) (wd : option str) (names stats : str),
    collects exec list_roots cwd_from_root base_branch pathspec
             wd names stats ->
    prints exec wd (diff_cmd base_branch pathspec) [] ->
    blank names -> blank stats -> (0 <= max_diff_lines)%Z ->
    snd (analyze_file_changes exec list_roots base_branch true
           max_diff_lines cwd_from_root pathspec)
    = Return (no_change_doc base_branch).
Proof.
  intros U exec list_roots base_branch max_diff_lines cwd_from_root
         pathspec wd names stats C P Bn Bs Hm.
  rewrite (analyze_with_diff C max_diff_lines P). cbn [snd].
  unfold result_of.
  rewrite (changed_files_of_blank (splitlines_Forall Bn)).
  rewrite (summary_of_blank Bs).
  unfold truncate_diff. cbn [splitlines length].
  destruct (Z.gtb_spec (Z.of_nat 0) max_diff_lines); [simpl in *; lia|].
  reflexivity.
Qed.

Lemma no_change_document_witness :
  snd (analyze_file_changes (U := ascii_table)
         (repository [] [LF] []) (Return []) main true 500 false [])
  = Return (no_change_doc main).
Proof.
  apply (@no_change_document ascii_table (repository [] [LF] [])
           (Return []) main 500 false [] None [] [LF]
           (repository_collects [] [LF] [] readable_empty)
           (repository_prints [] [LF] [])).
  - constructor.
  - repeat constructor.
  - lia.
Defined.

(** X12.  For a cap that is not negative the marker is a line break, the
    words "--- Diff truncated at ", the cap in decimal digits and the
    words " lines ---": the value of the digits is the cap, and [int]
    reads it back from them whenever they are no more than it accepts. *)
Theorem marker_names_the_cap :
  forall (U : UnicodeDecimal) (max_diff_lines : Z),
    (0 <= max_diff_lines)%Z ->
    exists digits,
      truncation_marker max_diff_lines
      = [LF] ++ lit "--- Diff truncated at " ++ digits
             ++ lit " lines ---"
      /\ digits <> []
      /\ Forall ascii_digit digits
      /\ digits_value 0 digits = Some max_diff_lines
      /\ int digits
         = if exceeds_limit (length digits) then None
           else Some max_diff_lines.
Proof.
  intros U max_diff_lines H. exists (format_int max_diff_lines).
  split; [reflexivity|].
  rewrite <- (Z2N.id max_diff_lines) by assumption.
  destruct (format_int_digits (Z.to_N max_diff_lines)) as [N F].
  split; [assumption|]. split; [assumption|].
  split; [apply digits_value_format_int|].
  destruct (exceeds_limit _) eqn:L.
  - unfold int. rewrite L. now destruct (format_int _).
  - now apply int_format_int.
Qed.

Lemma marker_names_the_cap_witness :
  exists digits,
    truncation_marker 500
    = [LF] ++ lit "--- Diff truncated at " ++ digits ++ lit " lines ---"
    /\ digits <> []
    /\ Forall ascii_digit digits
    /\ digits_value (U := ascii_table) 0 digits = Some 500%Z
    /\ int (U := ascii_table) digits
       = if exceeds_limit (U := ascii_table) (length digits) then None
         else Some 500%Z.
Proof.
  apply (@marker_names_the_cap ascii_table 500). lia.
Defined.


(** A cap of 4301 digits: its digits are in the marker, and [int] as it is
    installed does not read them back. *)
Example marker_digits_beyond_limit :
  int (U := ascii_table) (format_int (10 ^ 4300)) = None.
Proof. vm_compute. reflexivity. Qed.
